(** * Eufy RoboVac S1 Pro sensors: telemetry decoding and stabilisation

    A shallow embedding of
    [custom_components/eufy_robovac_s1_pro/sensor.py]:
    the varint decoder, the DPS 167 statistics parser, the battery sensor
    and the two stabilised (monotonic) counters, with the properties of
    the design document proved about them. *)

From Stdlib Require Import ZArith List String Ascii Bool Lia.
From stdpp Require Import base option list gmap strings.
From Equations Require Import Equations.

Local Open Scope Z_scope.

(** ** Python values, exceptions and byte strings *)

(** The exceptions the modelled code can meet.  All of them derive from
    Python's [Exception]; [BinasciiError] ([binascii.Error]) derives from
    [ValueError]. *)
Inductive exn : Set :=
| IndexError
| TypeError
| ValueError
| BinasciiError.

(** [except Exception] *)
Definition except_Exception (e : exn) : bool :=
  match e with
  | IndexError | TypeError | ValueError | BinasciiError => true
  end.

(** [except (ValueError, TypeError)] *)
Definition except_ValueError_TypeError (e : exn) : bool :=
  match e with
  | TypeError | ValueError | BinasciiError => true
  | IndexError => false
  end.

(** A [bytes] object: its items are integers (0..255 for a real one; no
    result below depends on that bound). *)
Abbreviation bytes := (list Z).

Definition len (data : bytes) : Z := Z.of_nat (length data).

(** [data[i]]: a negative index counts from the end, an index out of range
    raises [IndexError]. *)
Definition getitem (data : bytes) (i : Z) : exn + Z :=
  let j := if i <? 0 then i + len data else i in
  if (j <? 0) || (len data <=? j) then inl IndexError
  else match data !! Z.to_nat j with
       | Some b => inr b
       | None => inl IndexError
       end.

(** ** [decode_varint] *)

(** The [while pos < len(data)] loop; [value], [shift] and [pos] are the
    loop's variables.  The loop ends because [pos] grows towards
    [len(data)]. *)
Equations? decode_varint_loop (data : bytes) (value shift pos : Z) : exn + (Z * Z)
  by wf (Z.to_nat (len data - pos)) lt :=
  decode_varint_loop data value shift pos with Z_lt_dec pos (len data) := {
    | right _ => inr (value, pos)
    | left _ with getitem data pos := {
        | inl e => inl e
        | inr byte with Z.eq_dec (Z.land byte 0x80) 0 := {
            | left _ =>
                inr (Z.lor value (Z.shiftl (Z.land byte 0x7F) shift), pos + 1)
            | right _ =>
                decode_varint_loop data
                  (Z.lor value (Z.shiftl (Z.land byte 0x7F) shift))
                  (shift + 7) (pos + 1) } } }.
Proof. lia. Qed.

Definition decode_varint (data : bytes) (start_pos : Z) : exn + (Z * Z) :=
  decode_varint_loop data 0 0 start_pos.

(** The base-128 continuation form of the design document: seven bits per
    byte, low group first, bit 7 set on every byte but the last. *)
Equations? encode_varint (v : Z) : bytes by wf (Z.to_nat v) lt :=
  encode_varint v with Z_lt_dec v 128 := {
    | left _ => [v]
    | right _ => Z.lor (Z.land v 0x7F) 0x80 :: encode_varint (Z.shiftr v 7) }.
Proof.
  rewrite Z.shiftr_div_pow2 by lia.
  change (2 ^ 7) with 128.
  assert (v / 128 < v) by (apply Z.div_lt; lia).
  assert (0 <= v / 128) by (apply Z.div_pos; lia).
  lia.
Qed.

(** ** Telemetry values *)

(** A value of the telemetry snapshot ([coordinator.data]): [None], a
    boolean, an integer or a text. *)
Inductive Value : Type :=
| VNone
| VBool (b : bool)
| VInt (n : Z)
| VStr (s : string).

(** Python's truth value of a snapshot value ([not v] is its negation). *)
Definition truthy (v : Value) : bool :=
  match v with
  | VNone => false
  | VBool b => b
  | VInt n => negb (n =? 0)
  | VStr s => negb (String.eqb s EmptyString)
  end.

(** The snapshot is [None] or a dict from DP code to value. *)
Abbreviation snapshot := (option (gmap string Value)).

(** [not self.coordinator.data]: no snapshot, or an empty one. *)
Definition no_data (data : snapshot) : bool :=
  match data with
  | None => true
  | Some d => bool_decide (d = ∅)
  end.

(** [d.get(key)] and [d.get(key, default)] on a present snapshot. *)
Definition dict_get (d : gmap string Value) (key : string) : Value :=
  default VNone (d !! key).

Definition dict_get_default (d : gmap string Value) (key : string) (dflt : Value) : Value :=
  default dflt (d !! key).

(** ** A reference [base64.b64decode]

    The standard library's decoder is a parameter of the development (see
    the section below).  This instance follows CPython's
    [binascii.a2b_base64] in its default, non-strict mode and is used to
    run the parser on concrete texts. *)

Definition b64_digit (c : ascii) : option Z :=
  let n := Z.of_N (N_of_ascii c) in
  if (65 <=? n) && (n <=? 90) then Some (n - 65)
  else if (97 <=? n) && (n <=? 122) then Some (n - 71)
  else if (48 <=? n) && (n <=? 57) then Some (n + 4)
  else if n =? 43 then Some 62
  else if n =? 47 then Some 63
  else None.

Fixpoint a2b_base64 (s : string) (quad_pos leftchar pads : Z) (out : bytes) : exn + bytes :=
  match s with
  | EmptyString => if quad_pos =? 0 then inr out else inl BinasciiError
  | String c rest =>
      if Ascii.eqb c "="%char then
        if (2 <=? quad_pos) && (4 <=? quad_pos + (pads + 1)) then inr out
        else a2b_base64 rest quad_pos leftchar
               (if 2 <=? quad_pos then pads + 1 else pads) out
      else
        match b64_digit c with
        | None => a2b_base64 rest quad_pos leftchar pads out
        | Some d =>
            if quad_pos =? 0 then a2b_base64 rest 1 d 0 out
            else if quad_pos =? 1 then
              a2b_base64 rest 2 (Z.land d 0x0f) 0
                (out ++ [Z.lor (Z.shiftl leftchar 2) (Z.shiftr d 4)])
            else if quad_pos =? 2 then
              a2b_base64 rest 3 (Z.land d 0x03) 0
                (out ++ [Z.lor (Z.shiftl leftchar 4) (Z.shiftr d 2)])
            else
              a2b_base64 rest 0 0 0 (out ++ [Z.lor (Z.shiftl leftchar 6) d])
        end
  end.

Fixpoint is_ascii (s : string) : bool :=
  match s with
  | EmptyString => true
  | String c rest => (Z.of_N (N_of_ascii c) <? 128) && is_ascii rest
  end.

Definition b64decode_ref (s : string) : exn + bytes :=
  if is_ascii s then a2b_base64 s 0 0 0 [] else inl ValueError.

(** A reference [int(text)]: optional sign and ASCII decimal digits; any
    other text is a [ValueError] ([None]). *)
Fixpoint decimal_digits (s : string) (acc : Z) : option Z :=
  match s with
  | EmptyString => Some acc
  | String c rest =>
      let n := Z.of_N (N_of_ascii c) in
      if (48 <=? n) && (n <=? 57) then decimal_digits rest (10 * acc + (n - 48))
      else None
  end.

Definition int_of_text_ref (s : string) : option Z :=
  match s with
  | EmptyString => None
  | String "-" EmptyString | String "+" EmptyString => None
  | String "-" rest => Z.opp <$> decimal_digits rest 0
  | String "+" rest => decimal_digits rest 0
  | _ => decimal_digits s 0
  end.

Section Sensor.

(** ** The Python library functions the module calls *)

(** [base64.b64decode] on a text: the decoded bytes, or the exception it
    raises ([binascii.Error] for a malformed text, [ValueError] for a
    non-ASCII one). *)
Variable b64decode : string → exn + bytes.

(** [int] on a text: the integer, or [None] for a [ValueError]. *)
Variable int_of_text : string → option Z.

(** [base64.b64decode(v)]: anything but a text (or bytes, which a snapshot
    does not hold) is a [TypeError]. *)
Definition base64_b64decode (v : Value) : exn + bytes :=
  match v with
  | VStr s => b64decode s
  | VNone | VBool _ | VInt _ => inl TypeError
  end.

(** [int(v)] *)
Definition py_int (v : Value) : exn + Z :=
  match v with
  | VNone => inl TypeError
  | VBool b => inr (Z.b2z b)
  | VInt n => inr n
  | VStr s => match int_of_text s with
              | Some n => inr n
              | None => inl ValueError
              end
  end.

(** ** [parse_dps167_statistics] *)

(** The body of the [try] block runs over the dict [stats], which it
    updates in place, and may raise: a computation takes the dict and gives
    a value or an exception, and the dict as it is then. *)
Definition Try (A : Type) : Type :=
  gmap string (option Z) → (exn + A) * gmap string (option Z).

Definition try_ret {A : Type} (x : A) : Try A := λ stats, (inr x, stats).

Definition try_bind {A B : Type} (m : Try A) (f : A → Try B) : Try B :=
  λ stats,
    match m stats with
    | (inr x, stats') => f x stats'
    | (inl e, stats') => (inl e, stats')
    end.

Notation "'let*' x := m 'in' k" := (try_bind m (λ x, k))
  (at level 10, x name, m at level 100, k at level 200).
Notation "m ';;;' k" := (try_bind m (λ _, k))
  (at level 100, k at level 200, right associativity).

Definition lift {A : Type} (r : exn + A) : Try A := λ stats, (r, stats).

(** [stats[key] = value] *)
Definition setitem (key : string) (value : Z) : Try unit :=
  λ stats, (inr (), <[key := Some value]> stats).

(** [c and e], which evaluates [e] only when [c] holds. *)
Definition py_and (c : bool) (e : Try bool) : Try bool :=
  if c then e else try_ret false.

(** [data[i] == b] *)
Definition item_is (data : bytes) (i b : Z) : Try bool :=
  let* x := lift (getitem data i) in try_ret (x =? b).

(** The truth value of an integer: [if n:] *)
Definition nonzero (n : Z) : bool := negb (n =? 0).

Definition stats_init : gmap string (option Z) :=
  <["total_count" := None]> (<["total_area" := None]> (<["total_time_mins" := None]> ∅)).

Definition parse_total_count (data : bytes) : Try unit :=
  let* tag2 := py_and (2 <=? len data) (item_is data (-2) 0x18) in
  if tag2 then
    let* last := lift (getitem data (-1)) in
    setitem "total_count" last
  else
    let* tag3 := py_and (3 <=? len data) (item_is data (-3) 0x18) in
    if tag3 then
      let* byte1 := lift (getitem data (-2)) in
      let* byte2 := lift (getitem data (-1)) in
      if nonzero (Z.land byte1 0x80) then
        setitem "total_count" (Z.land byte1 0x7F + Z.shiftl byte2 7)
      else
        setitem "total_count" byte1
    else
      let* tag4 := py_and (4 <=? len data) (item_is data (-4) 0x18) in
      if tag4 then
        let* byte1 := lift (getitem data (-3)) in
        let* byte2 := lift (getitem data (-2)) in
        let* byte3 := lift (getitem data (-1)) in
        if nonzero (Z.land byte1 0x80) && nonzero (Z.land byte2 0x80) then
          setitem "total_count"
            (Z.land byte1 0x7F + Z.shiftl (Z.land byte2 0x7F) 7 + Z.shiftl byte3 14)
        else if nonzero (Z.land byte1 0x80) then
          setitem "total_count" (Z.land byte1 0x7F + Z.shiftl byte2 7)
        else
          setitem "total_count" byte1
      else try_ret ().

Definition parse_total_area (data : bytes) : Try unit :=
  if 16 <=? len data then
    let* byte1 := lift (getitem data 14) in
    let* byte2 := lift (getitem data 15) in
    if nonzero (Z.land byte1 0x80) then
      setitem "total_area" (Z.land byte1 0x7F + Z.shiftl byte2 7)
    else
      setitem "total_area" byte1
  else try_ret ().

(** The [try] block.  Its early [return stats] and the final one return
    the same dict, so leaving the block early is [try_ret ()]. *)
Definition parse_dps167_try (dps167_value : Value) : Try unit :=
  let* data := lift (base64_b64decode dps167_value) in
  if len data =? 0 then try_ret ()
  else
    parse_total_count data;;;
    parse_total_area data.

(** [try: ... except Exception: log] and [return stats]: the dict as the
    block left it. *)
Definition parse_dps167_statistics (dps167_value : Value)
  : exn + gmap string (option Z) :=
  match parse_dps167_try dps167_value stats_init with
  | (inr _, stats) => inr stats
  | (inl e, stats) => if except_Exception e then inr stats else inl e
  end.

(** [stats.get(key)], which is [None] for a missing key as for a [None]
    entry. *)
Definition stats_get (stats : gmap string (option Z)) (key : string) : option Z :=
  default None (stats !! key).

(** ** [BatteryPercentageSensor.native_value] *)

(** One [try: battery = int(value); if 0 <= battery <= 100: return battery]
    with its [except (ValueError, TypeError): pass]: [Some battery] when
    the function returns there, [None] when control goes on. *)
Definition battery_try (value : Value) : exn + option Z :=
  match py_int value with
  | inr battery =>
      if (0 <=? battery) && (battery <=? 100) then inr (Some battery)
      else inr None
  | inl e => if except_ValueError_TypeError e then inr None else inl e
  end.

Definition is_None (v : Value) : bool :=
  match v with
  | VNone => true
  | _ => false
  end.

Definition battery_from (d : gmap string Value) (key : string) : exn + option Z :=
  let value := dict_get d key in
  if is_None value then inr None else battery_try value.

Definition BatteryPercentageSensor_native_value (data : snapshot) : exn + option Z :=
  match data with
  | None => inr None
  | Some d =>
      if no_data data then inr None
      else
        match battery_from d "8" with
        | inl e => inl e
        | inr (Some battery) => inr (Some battery)
        | inr None =>
            match battery_from d "163" with
            | inl e => inl e
            | inr (Some battery) => inr (Some battery)
            | inr None => inr None
            end
        end
  end.

(** ** The stabilised counters

    [native_value] reads the snapshot and [self._last_valid_count] (or
    [_area]) and gives the value it returns with the attribute as it
    leaves it. *)

Definition TotalCleaningCountSensor_native_value
    (data : snapshot) (_last_valid_count : option Z)
  : exn + (option Z * option Z) :=
  match data with
  | None => inr (_last_valid_count, _last_valid_count)
  | Some d =>
      if no_data data then inr (_last_valid_count, _last_valid_count)
      else
        let dps167 := dict_get_default d "167" (VStr EmptyString) in
        if negb (truthy dps167) then inr (_last_valid_count, _last_valid_count)
        else
          match parse_dps167_statistics dps167 with
          | inl e => inl e
          | inr stats =>
              match stats_get stats "total_count" with
              | None => inr (_last_valid_count, _last_valid_count)
              | Some new_count =>
                  match _last_valid_count with
                  | None => inr (Some new_count, Some new_count)
                  | Some last =>
                      if last <=? new_count
                      then inr (Some new_count, Some new_count)
                      else inr (_last_valid_count, _last_valid_count)
                  end
              end
          end
  end.

Definition TotalCleaningAreaSensor_native_value
    (data : snapshot) (_last_valid_area : option Z)
  : exn + (option Z * option Z) :=
  match data with
  | None => inr (_last_valid_area, _last_valid_area)
  | Some d =>
      if no_data data then inr (_last_valid_area, _last_valid_area)
      else
        let dps167 := dict_get_default d "167" (VStr EmptyString) in
        if negb (truthy dps167) then inr (_last_valid_area, _last_valid_area)
        else
          match parse_dps167_statistics dps167 with
          | inl e => inl e
          | inr stats =>
              match stats_get stats "total_area" with
              | None => inr (_last_valid_area, _last_valid_area)
              | Some new_area =>
                  match _last_valid_area with
                  | None => inr (Some new_area, Some new_area)
                  | Some last =>
                      if last <=? new_area
                      then inr (Some new_area, Some new_area)
                      else inr (_last_valid_area, _last_valid_area)
                  end
              end
          end
  end.

(** A sensor polled once per snapshot, from the attribute's value [last]:
    the value returned and the attribute after each poll. *)
Fixpoint poll_all (native_value : snapshot → option Z → exn + (option Z * option Z))
    (polls : list snapshot) (last : option Z) : exn + list (option Z * option Z) :=
  match polls with
  | [] => inr []
  | data :: rest =>
      match native_value data last with
      | inl e => inl e
      | inr (returned, last') =>
          match poll_all native_value rest last' with
          | inl e => inl e
          | inr trace => inr ((returned, last') :: trace)
          end
      end
  end.

(** ** The design document's descriptions, to compare the code with *)

(** "Bit 7 set" *)
Definition bit7 (b : Z) : bool := Z.testbit b 7.

(** The byte at a position of the blob, when the blob has that position. *)
Definition byte_at (data : bytes) (i : Z) : option Z :=
  if i <? 0 then None else data !! Z.to_nat i.

Definition tag_at (data : bytes) (i : Z) : bool :=
  bool_decide (byte_at data i = Some 0x18).

(** Section 4.2, total_count: the tag [0x18] looked for at [len-2], then
    [len-3], then [len-4]. *)
Definition spec_total_count (data : bytes) : option Z :=
  let n := len data in
  if tag_at data (n - 2) then
    byte_at data (n - 1)
  else if tag_at data (n - 3) then
    b1 ← byte_at data (n - 2);
    b2 ← byte_at data (n - 1);
    Some (if bit7 b1 then Z.land b1 0x7F + Z.shiftl b2 7 else b1)
  else if tag_at data (n - 4) then
    b1 ← byte_at data (n - 3);
    b2 ← byte_at data (n - 2);
    b3 ← byte_at data (n - 1);
    Some (if bit7 b1 && bit7 b2 then
            Z.land b1 0x7F + Z.shiftl (Z.land b2 0x7F) 7 + Z.shiftl b3 14
          else if bit7 b1 then Z.land b1 0x7F + Z.shiftl b2 7
          else b1)
  else None.

(** Section 4.2, total_area: bytes 14 and 15 of a blob of 16 bytes or
    more. *)
Definition spec_total_area (data : bytes) : option Z :=
  if 16 <=? len data then
    byte14 ← byte_at data 14;
    byte15 ← byte_at data 15;
    Some (if bit7 byte14 then Z.land byte14 0x7F + Z.shiftl byte15 7 else byte14)
  else None.

(** A field stored when the parser found a value for it. *)
Definition store_field (key : string) (value : option Z)
    (stats : gmap string (option Z)) : gmap string (option Z) :=
  match value with
  | Some x => <[key := Some x]> stats
  | None => stats
  end.

(** Section 4.4, [update]: the value returned and the new [last_valid]. *)
Definition update (last_valid new_value : option Z) : option Z * option Z :=
  match new_value with
  | None => (last_valid, last_valid)
  | Some x =>
      match last_valid with
      | None => (Some x, Some x)
      | Some lv => if bool_decide (lv ≤ x) then (Some x, Some x)
                   else (last_valid, last_valid)
      end
  end.

(** The sample a poll gives for the field [key]: null when the snapshot
    is missing or empty, when it has no statistics blob, or when the
    parser finds no value. *)
Definition poll_sample (key : string) (data : snapshot) : option Z :=
  d ← data;
  v ← d !! "167";
  if truthy v then
    match parse_dps167_statistics v with
    | inr stats => stats_get stats key
    | inl _ => None
    end
  else None.

(** The successive returned values and [last_valid]s of [update] over a
    sequence of samples. *)
Fixpoint update_all (last_valid : option Z) (samples : list (option Z))
  : list (option Z * option Z) :=
  match samples with
  | [] => []
  | s :: rest =>
      let r := update last_valid s in
      r :: update_all (snd r) rest
  end.

(** The two stabilised metrics, each with its sensor and its field of the
    statistics. *)
Inductive metric : Set := Count | Area.

Definition native_value (m : metric) : snapshot → option Z → exn + (option Z * option Z) :=
  match m with
  | Count => TotalCleaningCountSensor_native_value
  | Area => TotalCleaningAreaSensor_native_value
  end.

Definition field (m : metric) : string :=
  match m with
  | Count => "total_count"
  | Area => "total_area"
  end.

(** A snapshot that holds the statistics blob [text] and nothing else. *)
Definition snapshot_167 (text : string) : snapshot :=
  Some {["167" := VStr text]}.

(** The greatest of the non-null samples, null when there is none. *)
Definition opt_max (m s : option Z) : option Z :=
  match m, s with
  | None, _ => s
  | _, None => m
  | Some a, Some b => Some (Z.max a b)
  end.

Definition running_max (samples : list (option Z)) : option Z :=
  foldl opt_max None samples.

(** A sequence of returned values never goes down: once a number has been
    returned, every later value is a number at least as large. *)
Definition non_decreasing (returned : list (option Z)) : Prop :=
  ∀ (i j : nat) (a : Z) (r : option Z),
    (i ≤ j)%nat → returned !! i = Some (Some a) → returned !! j = Some r →
    ∃ b, r = Some b ∧ a ≤ b.

(** Section 6: a DP "yields a valid value" when it is present and converts
    to an integer from 0 to 100. *)
Definition valid_battery (v : option Value) : option Z :=
  x ← v;
  match py_int x with
  | inr n => if bool_decide (0 ≤ n ≤ 100) then Some n else None
  | inl _ => None
  end.

End Sensor.

(** Several integers encoded one after the other, and the value and end
    position expected of each [decode_varint] call on the result. *)
Definition encode_varints (vs : list Z) : bytes :=
  concat (map encode_varint vs).

Fixpoint expected_decodes (vs : list Z) (pos : Z) : list (Z * Z) :=
  match vs with
  | [] => []
  | v :: rest =>
      let next := pos + len (encode_varint v) in
      (v, next) :: expected_decodes rest next
  end.

(** [decode_varint] applied [n] times, each call from where the one before
    it ended. *)
Fixpoint decode_varints (data : bytes) (pos : Z) (n : nat) : exn + list (Z * Z) :=
  match n with
  | O => inr []
  | S n' =>
      match decode_varint data pos with
      | inl e => inl e
      | inr (v, next) =>
          match decode_varints data next n' with
          | inl e => inl e
          | inr rest => inr ((v, next) :: rest)
          end
      end
  end.

(** [decode_varint] read the bytes of [start .. pos-1] and no other: each
    of them but the last has its continuation bit set, and the last one
    is a terminal byte or the last byte of the input.  From a [start] at or
    past the end it reads nothing. *)
Definition consumed (data : bytes) (start pos : Z) : Prop :=
  if decide (start < len data) then
    start < pos ≤ len data ∧
    (∀ p, start ≤ p < pos - 1 →
          ∃ b, getitem data p = inr b ∧ Z.land b 0x80 ≠ 0) ∧
    (pos = len data ∨ ∃ b, getitem data (pos - 1) = inr b ∧ Z.land b 0x80 = 0)
  else pos = start.

(** ** Availability of the sensors, and the other entities of [sensor.py] *)

(** [key in d] *)
Definition dict_contains {A : Type} (d : gmap string A) (key : string) : bool :=
  bool_decide (is_Some (d !! key)).

(** [BaseDPSensorEntity.available] *)
Definition BaseDPSensorEntity_available (dps_id : string) (data : snapshot) : bool :=
  match data with
  | None => false
  | Some d => dict_contains d dps_id
  end.

(** [BaseDPSensorEntity.native_value].  [parse_value] is the converter the
    entity may carry ([getattr(self, "parse_value", None)]); what it
    returns is a Python value again. *)
Definition BaseDPSensorEntity_native_value
    (parse_value : option (Value → exn + Value)) (dps_id : string) (data : snapshot)
  : exn + Value :=
  match data with
  | None => inr VNone
  | Some d =>
      if no_data data then inr VNone
      else
        let value := dict_get d dps_id in
        match parse_value with
        | Some converter =>
            match converter value with
            | inr converted => inr converted
            | inl e => if except_Exception e then inr value else inl e
            end
        | None => inr value
        end
  end.

(** [BatteryPercentageSensor.available] *)
Definition BatteryPercentageSensor_available (data : snapshot) : bool :=
  match data with
  | None => false
  | Some d => dict_contains d "8" || dict_contains d "163"
  end.

(** [RunningStatusSensor.available] *)
Definition RunningStatusSensor_available (data : snapshot) : bool :=
  match data with
  | None => false
  | Some d => dict_contains d "153" || dict_contains d "2"
  end.

(** [TotalCleaningCountSensor.available] *)
Definition TotalCleaningCountSensor_available (data : snapshot) : bool :=
  match data with
  | None => false
  | Some d => dict_contains d "167"
  end.

(** [TotalCleaningAreaSensor.available] *)
Definition TotalCleaningAreaSensor_available (data : snapshot) : bool :=
  match data with
  | None => false
  | Some d => dict_contains d "167"
  end.

Definition available (m : metric) : snapshot → bool :=
  match m with
  | Count => TotalCleaningCountSensor_available
  | Area => TotalCleaningAreaSensor_available
  end.

(** Modelled from the spec: the enumeration [RobovacState] of [vacuum.py],
    which is not among the sources.  The sensor names [CLEANING], [PAUSED],
    [RETURNING], [DOCKED] and [ERROR]; [UNKNOWN] stands for the remaining
    state of the design document's list. *)
Inductive RobovacState : Set :=
| CLEANING
| PAUSED
| RETURNING
| DOCKED
| ERROR
| UNKNOWN.

(** [x in [a, b, ...]] on texts *)
Definition str_in (x : string) (l : list string) : bool :=
  existsb (String.eqb x) l.

Section Entities.

(** [int] on a text, as before. *)
Variable int_of_text : string → option Z.

(** [decode_dps153_to_state] and [SUBSTATUS_DESCRIPTIONS] of [vacuum.py],
    and Home Assistant's [icon_for_battery_level]: they are not among the
    sources and stay parameters. *)
Variable decode_dps153_to_state : Value → exn + (RobovacState * string).
Variable SUBSTATUS_DESCRIPTIONS : gmap string string.
Variable icon_for_battery_level : option Z → bool → string.

(** [BatteryPercentageSensor.icon] *)
Definition BatteryPercentageSensor_icon (data : snapshot) : exn + string :=
  let mode :=
    match data with
    | None => VStr EmptyString
    | Some d =>
        if no_data data then VStr EmptyString
        else dict_get_default d "5" (VStr EmptyString)
    end in
  let charging :=
    match mode with
    | VStr s => str_in s ["charge"; "docked"; "Charging"]
    | VNone | VBool _ | VInt _ => false
    end in
  match BatteryPercentageSensor_native_value int_of_text data with
  | inl e => inl e
  | inr level => inr (icon_for_battery_level level charging)
  end.

(** [RunningStatusSensor.native_value] *)
Definition RunningStatusSensor_native_value (data : snapshot) : exn + string :=
  match data with
  | None => inr "Unknown"
  | Some d =>
      if no_data data then inr "Unknown"
      else
        let dps153 := dict_get_default d "153" (VStr EmptyString) in
        if truthy dps153 then
          match decode_dps153_to_state dps153 with
          | inl e => inl e
          | inr (detected_state, substatus) =>
              inr (default "Unknown" (SUBSTATUS_DESCRIPTIONS !! substatus))
          end
        else
          match dict_get d "2" with
          | VBool true => inr "Running"
          | VBool false => inr "Stopped"
          | VNone | VInt _ | VStr _ => inr "Unknown"
          end
  end.

(** [RunningStatusSensor.icon] *)
Definition RunningStatusSensor_icon (data : snapshot) : exn + string :=
  match data with
  | None => inr "mdi:robot-vacuum"
  | Some d =>
      if no_data data then inr "mdi:robot-vacuum"
      else
        let dps153 := dict_get_default d "153" (VStr EmptyString) in
        if truthy dps153 then
          match decode_dps153_to_state dps153 with
          | inl e => inl e
          | inr (detected_state, substatus) =>
              match detected_state with
              | CLEANING => inr "mdi:robot-vacuum"
              | PAUSED => inr "mdi:pause-circle"
              | RETURNING => inr "mdi:home-import-outline"
              | DOCKED =>
                  if str_in substatus ["charging"; "fully_charged"]
                  then inr "mdi:battery-charging"
                  else if String.eqb substatus "dust_collecting"
                  then inr "mdi:delete-empty"
                  else if str_in substatus ["mop_washing"; "mop_washing_pre"]
                  then inr "mdi:spray-bottle"
                  else if String.eqb substatus "mop_drying" then inr "mdi:fan"
                  else if String.eqb substatus "water_refilling" then inr "mdi:water"
                  else inr "mdi:home"
              | ERROR => inr "mdi:alert-circle"
              | UNKNOWN => inr "mdi:robot-vacuum"
              end
          end
        else inr "mdi:robot-vacuum"
  end.

End Entities.

(** *** [async_setup_entry] of [sensor.py] *)

(** The entities the platform creates, each on its device's coordinator;
    the two counters start with no stored value. *)
Inductive Entity (Coordinator : Type) : Type :=
| BatteryPercentageSensor (coordinator : Coordinator)
| RunningStatusSensor (coordinator : Coordinator)
| TotalCleaningCountSensor (coordinator : Coordinator) (_last_valid_count : option Z)
| TotalCleaningAreaSensor (coordinator : Coordinator) (_last_valid_area : option Z).

Arguments BatteryPercentageSensor {Coordinator} _.
Arguments RunningStatusSensor {Coordinator} _.
Arguments TotalCleaningCountSensor {Coordinator} _ _.
Arguments TotalCleaningAreaSensor {Coordinator} _ _.

(** A missing dict key: [d[key]] raises [KeyError]. *)
Inductive key_error : Set := KeyError.

Section Setup.

Variable Coordinator : Type.

(** The constants of [const.py], which is not among the sources. *)
Variable DOMAIN CONF_DISCOVERED_DEVICES CONF_COORDINATOR : string.

(** The loop over [discovered_devices.items()]; the dict is given by its
    items in order. *)
Fixpoint setup_devices (items : list (string * gmap string Coordinator))
  : key_error + list (Entity Coordinator) :=
  match items with
  | [] => inr []
  | (device_id, props) :: rest =>
      match props !! CONF_COORDINATOR with
      | None => inl KeyError
      | Some coordinator =>
          match setup_devices rest with
          | inl e => inl e
          | inr devices =>
              inr (BatteryPercentageSensor coordinator
                   :: RunningStatusSensor coordinator
                   :: TotalCleaningCountSensor coordinator None
                   :: TotalCleaningAreaSensor coordinator None
                   :: devices)
          end
      end
  end.

(** [async_setup_entry]: the list handed to [async_add_devices], [None]
    when that is not called. *)
Definition sensor_async_setup_entry
    (hass_data : gmap string (gmap string (gmap string (list (string * gmap string Coordinator)))))
    (entry_id : string)
  : key_error + option (list (Entity Coordinator)) :=
  match hass_data !! DOMAIN with
  | None => inl KeyError
  | Some domain_data =>
      match domain_data !! entry_id with
      | None => inl KeyError
      | Some entry_data =>
          match entry_data !! CONF_DISCOVERED_DEVICES with
          | None => inl KeyError
          | Some discovered_devices =>
              match setup_devices discovered_devices with
              | inl e => inl e
              | inr [] => inr None
              | inr devices => inr (Some devices)
              end
          end
      end
  end.

End Setup.

(** ** The configuration flow ([config_flow.py]) *)

(** A device as [async_step_user] stores it in [self._devices]: a dict
    with exactly these four keys. *)
Record flow_device : Type := {
  dev_name : string;
  dev_device_id : string;
  dev_local_key : string;
  dev_home_id : string
}.

(** An entry of the manual-devices table. *)
Record manual_device : Type := {
  md_ip : string;
  md_name : string;
  md_local_key : string;
  md_home_id : string
}.

(** A value of a config entry's [data]: a credential ([self._username] and
    [self._password], [None] until set) or the manual-devices table. *)
Inductive entry_value : Type :=
| ECredential (s : option string)
| EManualDevices (table : gmap string manual_device).

(** What a step returns: [async_create_entry(title, data)], or
    [async_show_form] with the step, the keys of the schema in order and
    the [devices] placeholder. *)
Inductive FlowResult : Type :=
| CreateEntry (title : option string) (data : gmap string entry_value)
| ShowForm (step_id : string) (schema_keys : list string) (devices : string).

(** [f"device_ip_{device['device_id']}"] *)
Definition ip_key (device : flow_device) : string :=
  String.append "device_ip_" (dev_device_id device).

(** [f"- {device['name']} (ID: {device['device_id']})"] joined by newlines *)
Definition device_info (devices : list flow_device) : string :=
  String.concat (String (ascii_of_nat 10) EmptyString)
    (map (λ device,
            String.append "- "
              (String.append (dev_name device)
                 (String.append " (ID: "
                    (String.append (dev_device_id device) ")"))))
         devices).

(** [schema_dict[vol.Optional(key)] = str]: a key already there keeps its
    place. *)
Definition schema_add (schema_keys : list string) (key : string) : list string :=
  if bool_decide (key ∈ schema_keys) then schema_keys else schema_keys ++ [key].

Section ConfigFlow.

(** [str.strip] *)
Variable strip : string → string.

(** The keys [CONF_EMAIL] and [CONF_PASSWORD] of Home Assistant and
    [CONF_MANUAL_DEVICES] of [const.py]. *)
Variable CONF_EMAIL CONF_PASSWORD CONF_MANUAL_DEVICES : string.

(** The loop of [async_step_device_list] that fills [manual_devices]. *)
Definition collect_manual_devices (devices : list flow_device)
    (user_input : gmap string string) : gmap string manual_device :=
  foldl (λ manual_devices device,
           match user_input !! ip_key device with
           | Some text =>
               if negb (String.eqb (strip text) EmptyString) then
                 <[dev_device_id device :=
                     {| md_ip := strip text;
                        md_name := dev_name device;
                        md_local_key := dev_local_key device;
                        md_home_id := dev_home_id device |}]> manual_devices
               else manual_devices
           | None => manual_devices
           end)
        ∅ devices.

(** [{CONF_EMAIL: self._username, CONF_PASSWORD: self._password}] *)
Definition credentials (_username _password : option string) : gmap string entry_value :=
  <[CONF_PASSWORD := ECredential _password]>
    (<[CONF_EMAIL := ECredential _username]> ∅).

(** [async_step_device_list] *)
Definition async_step_device_list (_devices : list flow_device)
    (_username _password : option string)
    (user_input : option (gmap string string)) : FlowResult :=
  match user_input with
  | Some input =>
      let manual_devices := collect_manual_devices _devices input in
      let data := credentials _username _password in
      let data :=
        if bool_decide (manual_devices = ∅) then data
        else <[CONF_MANUAL_DEVICES := EManualDevices manual_devices]> data in
      CreateEntry _username data
  | None =>
      ShowForm "device_list"
        (foldl (λ schema_dict device, schema_add schema_dict (ip_key device))
               [] _devices)
        (device_info _devices)
  end.

(** [async_step_manual_config]; the form's values are Python values (a
    boolean for [add_manual_devices]). *)
Definition async_step_manual_config (_devices : list flow_device)
    (_username _password : option string)
    (user_input : option (gmap string Value)) : FlowResult :=
  match user_input with
  | Some input =>
      if negb (truthy (dict_get_default input "add_manual_devices" (VBool false)))
      then CreateEntry _username (credentials _username _password)
      else async_step_device_list _devices _username _password None
  | None =>
      ShowForm "manual_config" ["add_manual_devices"] (device_info _devices)
  end.

End ConfigFlow.

(** A reference [str.strip]: the whitespace of Python among the first 256
    code points, removed at both ends. *)
Definition is_whitespace (c : ascii) : bool :=
  let n := Z.of_N (N_of_ascii c) in
  ((9 <=? n) && (n <=? 13)) || ((28 <=? n) && (n <=? 32))
  || (n =? 133) || (n =? 160).

Fixpoint lstrip (s : string) : string :=
  match s with
  | EmptyString => EmptyString
  | String c rest => if is_whitespace c then lstrip rest else s
  end.

Definition strip_ref (s : string) : string :=
  String.rev (lstrip (String.rev (lstrip s))).

(** ** Notions used to state further properties *)

(** A real [bytes] object: every item is in 0..255. *)
Definition is_bytes (data : bytes) : Prop :=
  Forall (λ b, 0 ≤ b < 256) data.

(** The position at which the parser finds the count's tag, if any. *)
Definition tag_position (data : bytes) : option Z :=
  if tag_at data (len data - 2) then Some (len data - 2)
  else if tag_at data (len data - 3) then Some (len data - 3)
  else if tag_at data (len data - 4) then Some (len data - 4)
  else None.

(** The value stored after a run of polls that started from [last]. *)
Definition final_stored (last : option Z) (trace : list (option Z * option Z))
  : option Z :=
  match list.last trace with
  | Some (_, stored) => stored
  | None => last
  end.

(** * Properties *)

(** ** Bits and items *)

Lemma land_0x80_bit7 (b : Z) : Z.land b 0x80 = if Z.testbit b 7 then 0x80 else 0.
Proof.
  apply Z.bits_inj'. intros n Hn.
  rewrite Z.land_spec. change 0x80 with (2 ^ 7).
  rewrite Z.pow2_bits_eqb by lia.
  destruct (Z.eqb_spec 7 n) as [<- | Hne].
  - rewrite andb_true_r. destruct (Z.testbit b 7); [| now rewrite Z.bits_0].
    now rewrite Z.pow2_bits_true by lia.
  - rewrite andb_false_r. destruct (Z.testbit b 7); [| now rewrite Z.bits_0].
    rewrite Z.pow2_bits_false; [reflexivity | lia].
Qed.

Lemma nonzero_land_0x80 (b : Z) : nonzero (Z.land b 0x80) = bit7 b.
Proof.
  unfold nonzero, bit7. rewrite land_0x80_bit7.
  now destruct (Z.testbit b 7).
Qed.

Lemma len_nonneg (data : bytes) : 0 ≤ len data.
Proof. unfold len. lia. Qed.

Lemma len_app (xs ys : bytes) : len (xs ++ ys) = len xs + len ys.
Proof. unfold len. rewrite length_app. lia. Qed.

Lemma byte_at_Some (data : bytes) (i : Z) :
  0 ≤ i < len data → ∃ x, byte_at data i = Some x.
Proof.
  intros Hi. unfold byte_at.
  destruct (Z.ltb_spec i 0); [lia |].
  destruct (lookup_lt_is_Some_2 data (Z.to_nat i)) as [x Hx].
  - unfold len in Hi. lia.
  - eauto.
Qed.

Lemma byte_at_inv (data : bytes) (i x : Z) :
  byte_at data i = Some x → 0 ≤ i < len data.
Proof.
  unfold byte_at. destruct (Z.ltb_spec i 0); [discriminate |].
  intros Hx. apply lookup_lt_Some in Hx. unfold len. lia.
Qed.

Lemma getitem_byte_at (data : bytes) (i x : Z) :
  byte_at data i = Some x → getitem data i = inr x.
Proof.
  intros Hx. pose proof (byte_at_inv _ _ _ Hx) as Hi.
  unfold byte_at in Hx. unfold getitem.
  destruct (Z.ltb_spec i 0); [lia |].
  destruct (Z.ltb_spec i 0); [lia |].
  destruct (Z.leb_spec (len data) i); [lia |].
  cbn. now rewrite Hx.
Qed.

(** [data[-k]] is the byte at [len - k]. *)
Lemma getitem_from_end (data : bytes) (k x : Z) :
  1 ≤ k → byte_at data (len data - k) = Some x → getitem data (- k) = inr x.
Proof.
  intros Hk Hx. pose proof (byte_at_inv _ _ _ Hx) as Hi.
  unfold byte_at in Hx. unfold getitem.
  destruct (Z.ltb_spec (- k) 0); [| lia].
  replace (- k + len data) with (len data - k) by lia.
  destruct (Z.ltb_spec (len data - k) 0); [lia |].
  destruct (Z.leb_spec (len data) (len data - k)); [lia |].
  cbn. now rewrite Hx.
Qed.

Lemma getitem_app_at (pre post : bytes) (x : Z) :
  getitem (pre ++ x :: post) (len pre) = inr x.
Proof.
  apply getitem_byte_at. unfold byte_at.
  pose proof (len_nonneg pre).
  destruct (Z.ltb_spec (len pre) 0); [lia |].
  unfold len. rewrite Nat2Z.id. apply list_lookup_middle. reflexivity.
Qed.

(** ** The statistics parser, step by step *)

Lemma getitem_neg (data : bytes) (k : positive) (x : Z) :
  byte_at data (len data - Z.pos k) = Some x → getitem data (Z.neg k) = inr x.
Proof. apply (getitem_from_end data (Z.pos k)). lia. Qed.

Lemma py_and_tag (data : bytes) (p : positive) (stats : gmap string (option Z)) :
  py_and (Z.pos p <=? len data) (item_is data (Z.neg p) 0x18) stats
  = (inr (tag_at data (len data - Z.pos p)), stats).
Proof.
  unfold py_and, tag_at. set (k := Z.pos p).
  assert (Hk : 1 ≤ k) by lia.
  change (Z.neg p) with (- k).
  destruct (Z.leb_spec k (len data)) as [Hle | Hgt].
  - destruct (byte_at_Some data (len data - k)) as [x Hx]; [lia |].
    unfold item_is, try_bind, lift, try_ret.
    rewrite (getitem_from_end _ _ _ Hk Hx), Hx.
    do 2 f_equal. destruct (Z.eqb_spec x 0x18) as [-> | Hne].
    + now rewrite bool_decide_eq_true_2.
    + rewrite bool_decide_eq_false_2; [reflexivity | congruence].
  - unfold try_ret. do 2 f_equal. symmetry. apply bool_decide_eq_false_2.
    intros Hx. apply byte_at_inv in Hx. lia.
Qed.

Lemma tag_at_inv (data : bytes) (i : Z) : tag_at data i = true → 0 ≤ i < len data.
Proof.
  unfold tag_at. intros H. apply bool_decide_eq_true_1 in H.
  now apply byte_at_inv in H.
Qed.

(** The bytes that follow a tag found at [len - k]. *)
Ltac bytes_after_tag data Htag :=
  pose proof (tag_at_inv _ _ Htag);
  repeat match goal with
    | |- context [getitem data (Z.neg ?k)] =>
        let x := fresh "x" in
        let Hx := fresh "Hx" in
        destruct (byte_at_Some data (len data - Z.pos k)) as [x Hx]; [lia |];
        rewrite (getitem_neg data k x Hx)
    end.

(** The count part never raises, and stores what the design document
    describes. *)
Lemma parse_total_count_run (data : bytes) (stats : gmap string (option Z)) :
  parse_total_count data stats
  = (inr (), match spec_total_count data with
             | Some c => <["total_count" := Some c]> stats
             | None => stats
             end).
Proof.
  unfold parse_total_count, spec_total_count.
  unfold try_bind at 1. rewrite py_and_tag.
  destruct (tag_at data (len data - 2)) eqn:Htag2.
  { unfold try_bind, lift, setitem. bytes_after_tag data Htag2.
    now rewrite Hx. }
  unfold try_bind at 1. rewrite py_and_tag.
  destruct (tag_at data (len data - 3)) eqn:Htag3.
  { unfold try_bind, lift, setitem. bytes_after_tag data Htag3.
    rewrite Hx, Hx0, nonzero_land_0x80. cbn [mbind option_bind].
    now destruct (bit7 x). }
  unfold try_bind at 1. rewrite py_and_tag.
  destruct (tag_at data (len data - 4)) eqn:Htag4; [| reflexivity].
  unfold try_bind, lift, setitem. bytes_after_tag data Htag4.
  rewrite Hx, Hx0, Hx1, !nonzero_land_0x80. cbn [mbind option_bind].
  now destruct (bit7 x), (bit7 x0).
Qed.

(** So does the area part. *)
Lemma parse_total_area_run (data : bytes) (stats : gmap string (option Z)) :
  parse_total_area data stats
  = (inr (), match spec_total_area data with
             | Some a => <["total_area" := Some a]> stats
             | None => stats
             end).
Proof.
  unfold parse_total_area, spec_total_area.
  destruct (Z.leb_spec 16 (len data)) as [Hle | Hgt]; [| reflexivity].
  destruct (byte_at_Some data 14) as [b14 H14]; [lia |].
  destruct (byte_at_Some data 15) as [b15 H15]; [lia |].
  unfold try_bind, lift, setitem.
  rewrite (getitem_byte_at _ _ _ H14), (getitem_byte_at _ _ _ H15), H14, H15.
  rewrite nonzero_land_0x80. cbn [mbind option_bind]. now destruct (bit7 b14).
Qed.

Lemma store_field_lookup (key key' : string) (value : option Z)
    (stats : gmap string (option Z)) :
  stats !! key = Some None →
  store_field key value stats !! key' =
  if decide (key = key') then Some value else stats !! key'.
Proof.
  intros Hk. unfold store_field. destruct value as [x |].
  - rewrite lookup_insert. reflexivity.
  - destruct (decide (key = key')) as [<- |]; [assumption | reflexivity].
Qed.

Lemma stats_init_lookup (key : string) :
  stats_init !! key =
  if decide (key = "total_count" ∨ key = "total_area" ∨ key = "total_time_mins")
  then Some None else None.
Proof.
  unfold stats_init. rewrite !lookup_insert, lookup_empty.
  repeat case_decide; intuition congruence.
Qed.

Lemma byte_at_suffix (pre suf : bytes) (i : Z) :
  0 ≤ i → byte_at (pre ++ suf) (len (pre ++ suf) - len suf + i) = byte_at suf i.
Proof.
  intros Hi. rewrite len_app. unfold byte_at.
  pose proof (len_nonneg pre).
  destruct (Z.ltb_spec (len pre + len suf - len suf + i) 0); [lia |].
  destruct (Z.ltb_spec i 0); [lia |].
  replace (Z.to_nat (len pre + len suf - len suf + i))
    with (length pre + Z.to_nat i)%nat by (unfold len; lia).
  rewrite lookup_app_r by lia. f_equal. lia.
Qed.

Section ParserProperties.

Variable b64decode : string → exn + bytes.

(** What the parser returns for a text that decodes. *)
Lemma parse_decoded (v : Value) (data : bytes) :
  base64_b64decode b64decode v = inr data →
  parse_dps167_statistics b64decode v
  = inr (if len data =? 0 then stats_init
         else store_field "total_area" (spec_total_area data)
                (store_field "total_count" (spec_total_count data) stats_init)).
Proof.
  intros Hdec. unfold parse_dps167_statistics, parse_dps167_try.
  unfold try_bind at 1, lift. rewrite Hdec.
  destruct (len data =? 0); [reflexivity |].
  unfold try_bind. now rewrite parse_total_count_run, parse_total_area_run.
Qed.

(** What it returns for one that does not. *)
Lemma parse_failed (v : Value) (e : exn) :
  base64_b64decode b64decode v = inl e →
  parse_dps167_statistics b64decode v = inr stats_init.
Proof.
  intros Hdec. unfold parse_dps167_statistics, parse_dps167_try.
  unfold try_bind, lift. rewrite Hdec. now destruct e.
Qed.

Lemma parse_returns (v : Value) :
  ∃ stats, parse_dps167_statistics b64decode v = inr stats.
Proof.
  destruct (base64_b64decode b64decode v) as [e | data] eqn:Hdec.
  - rewrite (parse_failed _ _ Hdec). eauto.
  - rewrite (parse_decoded _ _ Hdec). eauto.
Qed.

(** C2. For a text that decodes to [data], the parser's [total_count] is
    found by looking for the tag [0x18] at [len-2], then [len-3], then
    [len-4], and decoding the one, two or three bytes after it as
    [spec_total_count] spells out; it is null when no position holds the
    tag.  A blob ending in [0x18, 0x07] gives 7 and one ending in
    [0x18, 0x94, 0x01] gives 148. *)
Theorem total_count_by_tag_priority (v : Value) (data : bytes) :
  base64_b64decode b64decode v = inr data →
  ∃ stats,
    parse_dps167_statistics b64decode v = inr stats ∧
    stats !! "total_count" = Some (spec_total_count data) ∧
    (∀ pre, data = pre ++ [0x18; 0x07] →
            stats !! "total_count" = Some (Some 7)) ∧
    (∀ pre, data = pre ++ [0x18; 0x94; 0x01] →
            stats !! "total_count" = Some (Some 148)).
Proof.
  intros Hdec. rewrite (parse_decoded _ _ Hdec). eexists. split; [reflexivity |].
  assert (Hcount :
    (if len data =? 0 then stats_init
     else store_field "total_area" (spec_total_area data)
            (store_field "total_count" (spec_total_count data) stats_init))
      !! "total_count" = Some (spec_total_count data)).
  { destruct (Z.eqb_spec (len data) 0) as [Hz | Hnz].
    - destruct data; [reflexivity | unfold len in Hz; cbn in Hz; lia].
    - rewrite store_field_lookup.
      + destruct (decide ("total_area" = "total_count")); [discriminate |].
        rewrite store_field_lookup by reflexivity. reflexivity.
      + rewrite store_field_lookup by reflexivity. reflexivity. }
  split; [exact Hcount |]. rewrite Hcount. clear Hcount Hdec.
  split; intros pre ->; do 2 f_equal; unfold spec_total_count.
  - unfold tag_at.
    replace (len (pre ++ [24; 7]) - 2)
      with (len (pre ++ [24; 7]) - len [24; 7] + 0) by (unfold len; cbn; lia).
    replace (len (pre ++ [24; 7]) - 1)
      with (len (pre ++ [24; 7]) - len [24; 7] + 1) by (unfold len; cbn; lia).
    rewrite !byte_at_suffix by lia. reflexivity.
  - unfold tag_at.
    replace (len (pre ++ [24; 148; 1]) - 2)
      with (len (pre ++ [24; 148; 1]) - len [24; 148; 1] + 1)
      by (unfold len; cbn; lia).
    replace (len (pre ++ [24; 148; 1]) - 3)
      with (len (pre ++ [24; 148; 1]) - len [24; 148; 1] + 0)
      by (unfold len; cbn; lia).
    replace (len (pre ++ [24; 148; 1]) - 1)
      with (len (pre ++ [24; 148; 1]) - len [24; 148; 1] + 2)
      by (unfold len; cbn; lia).
    rewrite !byte_at_suffix by lia. reflexivity.
Qed.

Lemma total_area_lookup (data : bytes) :
  (if len data =? 0 then stats_init
   else store_field "total_area" (spec_total_area data)
          (store_field "total_count" (spec_total_count data) stats_init))
    !! "total_area" = Some (spec_total_area data).
Proof.
  destruct (Z.eqb_spec (len data) 0) as [Hz | Hnz].
  - destruct data; [reflexivity | unfold len in Hz; cbn in Hz; lia].
  - rewrite store_field_lookup.
    + now destruct (decide ("total_area" = "total_area")).
    + rewrite store_field_lookup by reflexivity. reflexivity.
Qed.

(** C3. For a text that decodes to 16 bytes or more, [total_area] is the
    two-byte varint of bytes 14 and 15: [(byte14 & 0x7F) + (byte15 << 7)]
    when byte 14 has bit 7 set, byte 14 alone otherwise; for 15 bytes or
    fewer it is null.  Bytes [0x94] and [0x01] there give 148. *)
Theorem total_area_at_14_15 (v : Value) (data : bytes) :
  base64_b64decode b64decode v = inr data →
  ∃ stats,
    parse_dps167_statistics b64decode v = inr stats ∧
    (16 ≤ len data →
     ∃ byte14 byte15,
       data !! 14%nat = Some byte14 ∧ data !! 15%nat = Some byte15 ∧
       stats !! "total_area" =
       Some (Some (if Z.testbit byte14 7
                   then Z.land byte14 0x7F + Z.shiftl byte15 7
                   else byte14))) ∧
    (len data ≤ 15 → stats !! "total_area" = Some None) ∧
    (16 ≤ len data → data !! 14%nat = Some 0x94 → data !! 15%nat = Some 0x01 →
     stats !! "total_area" = Some (Some 148)).
Proof.
  intros Hdec. rewrite (parse_decoded _ _ Hdec). eexists. split; [reflexivity |].
  rewrite total_area_lookup. unfold spec_total_area.
  split; [| split].
  - intros Hlen. destruct (Z.leb_spec 16 (len data)); [| lia].
    destruct (byte_at_Some data 14) as [b14 H14]; [lia |].
    destruct (byte_at_Some data 15) as [b15 H15]; [lia |].
    exists b14, b15. rewrite H14, H15. auto.
  - intros Hlen. destruct (Z.leb_spec 16 (len data)); [lia | reflexivity].
  - intros Hlen H14 H15. destruct (Z.leb_spec 16 (len data)); [| lia].
    unfold byte_at.
    change (Z.to_nat 14) with 14%nat. change (Z.to_nat 15) with 15%nat.
    change (14 <? 0) with false. change (15 <? 0) with false.
    cbv iota. rewrite H14, H15. reflexivity.
Qed.

(** C4. When the base64 decoding fails, and when it gives no bytes, the
    parser returns with [total_count] and [total_area] null; and for
    every input it returns a dict: no exception reaches the caller. *)
Theorem parse_absorbs_failures :
  (∀ v e, base64_b64decode b64decode v = inl e →
     ∃ stats, parse_dps167_statistics b64decode v = inr stats ∧
              stats !! "total_count" = Some None ∧
              stats !! "total_area" = Some None) ∧
  (∀ v, base64_b64decode b64decode v = inr [] →
     ∃ stats, parse_dps167_statistics b64decode v = inr stats ∧
              stats !! "total_count" = Some None ∧
              stats !! "total_area" = Some None) ∧
  (∀ v, ∃ stats, parse_dps167_statistics b64decode v = inr stats).
Proof.
  split; [| split].
  - intros v e Hdec. rewrite (parse_failed _ _ Hdec). eexists. now split.
  - intros v Hdec. rewrite (parse_decoded _ _ Hdec). eexists. now split.
  - apply parse_returns.
Qed.

Lemma parse_keeps_time_null (v : Value) (stats : gmap string (option Z)) :
  parse_dps167_statistics b64decode v = inr stats →
  stats !! "total_time_mins" = Some None ∧
  ∀ key, is_Some (stats !! key) ↔
         key = "total_count" ∨ key = "total_area" ∨ key = "total_time_mins".
Proof.
  assert (Hinit : ∀ key, is_Some (stats_init !! key) ↔
            key = "total_count" ∨ key = "total_area" ∨ key = "total_time_mins").
  { intros key. rewrite stats_init_lookup. case_decide.
    - split; [auto | eauto].
    - split; [intros [? ?]; discriminate | tauto]. }
  destruct (base64_b64decode b64decode v) as [e | data] eqn:Hdec.
  - rewrite (parse_failed _ _ Hdec). intros [= <-]. now split.
  - rewrite (parse_decoded _ _ Hdec). intros [= <-].
    destruct (len data =? 0); [now split |].
    assert (Hc : ∀ key, store_field "total_count" (spec_total_count data) stats_init !! key
                 = if decide ("total_count" = key) then Some (spec_total_count data)
                   else stats_init !! key)
      by (intros; now apply store_field_lookup).
    assert (Ha : ∀ key, store_field "total_area" (spec_total_area data)
                   (store_field "total_count" (spec_total_count data) stats_init) !! key
                 = if decide ("total_area" = key) then Some (spec_total_area data)
                   else store_field "total_count" (spec_total_count data) stats_init !! key).
    { intros. apply store_field_lookup. now rewrite Hc. }
    split.
    + rewrite Ha, Hc. reflexivity.
    + intros key. rewrite Ha, Hc. repeat case_decide; subst.
      * split; [auto | eauto].
      * split; [auto | eauto].
      * apply Hinit.
Qed.

(** C5, as the code has it. For every input the returned dict has exactly
    the keys [total_count], [total_area] and [total_time_mins], and
    [total_time_mins] is there with the value null: the cleaning time is
    never decoded, but its field is present. *)
Theorem time_field_present_and_null (v : Value) :
  ∃ stats,
    parse_dps167_statistics b64decode v = inr stats ∧
    stats !! "total_time_mins" = Some None ∧
    dom stats = ({["total_count"; "total_area"; "total_time_mins"]} : gset string).
Proof.
  destruct (parse_returns v) as [stats Hp]. exists stats.
  destruct (parse_keeps_time_null _ _ Hp) as [Ht Hkeys].
  split; [assumption |]. split; [assumption |].
  apply set_eq. intros key. rewrite elem_of_dom, Hkeys.
  rewrite !elem_of_union, !elem_of_singleton. tauto.
Qed.

End ParserProperties.

(** ** The sensors *)

Lemma update_opt_max (last s : option Z) :
  update last s = (opt_max last s, opt_max last s).
Proof.
  destruct s as [x |], last as [lv |]; cbn; try reflexivity.
  case_bool_decide; do 2 f_equal; lia.
Qed.

Lemma update_all_length (last : option Z) (samples : list (option Z)) :
  length (update_all last samples) = length samples.
Proof.
  revert last. induction samples as [| s rest IH]; intros last; cbn; [| rewrite IH]; reflexivity.
Qed.

(** After each sample, the value returned and [last_valid] are both the
    greatest of [last] and the samples so far. *)
Lemma update_all_lookup (samples : list (option Z)) :
  ∀ (last : option Z) (n : nat) (s : option Z),
    samples !! n = Some s →
    update_all last samples !! n
    = Some (foldl opt_max last (take (S n) samples),
            foldl opt_max last (take (S n) samples)).
Proof.
  induction samples as [| s0 rest IH]; intros last n s Hn; [discriminate |].
  cbn [update_all]. rewrite update_opt_max. destruct n as [| n'].
  - cbn. now rewrite take_0.
  - cbn [lookup list_lookup snd] in *. rewrite (IH _ _ _ Hn). reflexivity.
Qed.

Lemma foldl_opt_max_ge (samples : list (option Z)) :
  ∀ a : Z, ∃ b, foldl opt_max (Some a) samples = Some b ∧ a ≤ b.
Proof.
  induction samples as [| s rest IH]; intros a; cbn [foldl].
  - exists a. split; [reflexivity | lia].
  - destruct s as [x |]; cbn [opt_max].
    + destruct (IH (Z.max a x)) as (b & -> & Hb). exists b. split; [reflexivity | lia].
    + apply IH.
Qed.

Lemma update_all_non_decreasing (last : option Z) (samples : list (option Z)) :
  non_decreasing ((update_all last samples).*1).
Proof.
  intros i j a r Hij Hi Hj.
  rewrite list_lookup_fmap in Hi, Hj.
  destruct (update_all last samples !! i) as [[ri li] |] eqn:Ei; [| discriminate].
  destruct (update_all last samples !! j) as [[rj lj] |] eqn:Ej; [| discriminate].
  cbn in Hi, Hj. injection Hi as ->. injection Hj as ->.
  destruct (lookup_lt_is_Some_2 samples i) as [si Hsi].
  { rewrite <- (update_all_length last). eapply lookup_lt_Some, Ei. }
  destruct (lookup_lt_is_Some_2 samples j) as [sj Hsj].
  { rewrite <- (update_all_length last). eapply lookup_lt_Some, Ej. }
  rewrite (update_all_lookup _ _ _ _ Hsi) in Ei.
  rewrite (update_all_lookup _ _ _ _ Hsj) in Ej.
  injection Ei as Ei _. injection Ej as Ej _.
  rewrite <- (take_drop (S i) (take (S j) samples)) in Ej.
  rewrite take_take, Nat.min_l, foldl_app, Ei in Ej by lia.
  destruct (foldl_opt_max_ge (drop (S i) (take (S j) samples)) a) as (b & Hb & Hab).
  exists b. split; [congruence | assumption].
Qed.

Section SensorProperties.

Variable b64decode : string → exn + bytes.
Variable int_of_text : string → option Z.

(** Each sensor is [update] applied to the sample of the poll. *)
Lemma native_value_update (m : metric) (data : snapshot) (last : option Z) :
  native_value b64decode m data last
  = inr (update last (poll_sample b64decode (field m) data)).
Proof.
  assert (Hcmp : ∀ lv x : Z,
    (if lv <=? x then inr (Some x, Some x) else inr (Some lv, Some lv))
    = (inr (update (Some lv) (Some x)) : exn + (option Z * option Z))).
  { intros lv x. cbn. destruct (Z.leb_spec lv x); case_bool_decide; (reflexivity || lia). }
  destruct data as [d |]; [| now destruct m].
  unfold poll_sample. cbn [mbind option_bind].
  destruct (decide (d = ∅)) as [-> | Hne].
  { rewrite lookup_empty. now destruct m. }
  assert (Hnd : no_data (Some d) = false)
    by (unfold no_data; now apply bool_decide_eq_false_2).
  destruct m; cbn [native_value field];
    unfold TotalCleaningCountSensor_native_value,
           TotalCleaningAreaSensor_native_value;
    rewrite Hnd; unfold dict_get_default;
    (destruct (d !! "167") as [v |];
       cbn [default from_option id mbind option_bind]; [| reflexivity]);
    (destruct (truthy v); cbn [negb]; [| reflexivity]);
    destruct (parse_returns b64decode v) as [stats ->];
    (destruct (stats_get stats _) as [x |]; [| reflexivity]);
    (destruct last as [lv |]; [apply Hcmp | reflexivity]).
Qed.

Lemma poll_all_update_all (m : metric) (polls : list snapshot) (last : option Z) :
  poll_all (native_value b64decode m) polls last
  = inr (update_all last (poll_sample b64decode (field m) <$> polls)).
Proof.
  revert last. induction polls as [| data polls IH]; intros last; [reflexivity |].
  cbn [poll_all fmap list_fmap update_all].
  rewrite native_value_update.
  destruct (update last (poll_sample b64decode (field m) data)) as [r last'].
  now rewrite IH.
Qed.

(** C1. For each stabilised counter and every sequence of polls, from any
    stored value: no poll raises, the sequence of returned values is
    non-decreasing, and a non-null sample strictly below the stored
    [last_valid] leaves the stored and the returned value as they were.
    Samples 5, 9, 3, 12 on a fresh counter return 5, 9, 9, 12. *)
Theorem stabilizer_monotonicity (m : metric) :
  (∀ polls last,
     ∃ trace, poll_all (native_value b64decode m) polls last = inr trace ∧
              non_decreasing (trace.*1)) ∧
  (∀ data lv x,
     poll_sample b64decode (field m) data = Some x → x < lv →
     native_value b64decode m data (Some lv) = inr (Some lv, Some lv)) ∧
  (∀ p1 p2 p3 p4,
     poll_sample b64decode (field m) p1 = Some 5 →
     poll_sample b64decode (field m) p2 = Some 9 →
     poll_sample b64decode (field m) p3 = Some 3 →
     poll_sample b64decode (field m) p4 = Some 12 →
     ∃ trace, poll_all (native_value b64decode m) [p1; p2; p3; p4] None = inr trace ∧
              trace.*1 = [Some 5; Some 9; Some 9; Some 12]).
Proof.
  split; [| split].
  - intros polls last. rewrite poll_all_update_all. eexists. split; [reflexivity |].
    apply update_all_non_decreasing.
  - intros data lv x Hs Hlt. rewrite native_value_update, Hs. cbn.
    case_bool_decide; [lia | reflexivity].
  - intros p1 p2 p3 p4 H1 H2 H3 H4. rewrite poll_all_update_all.
    eexists. split; [reflexivity |].
    cbn [fmap list_fmap]. rewrite H1, H2, H3, H4. reflexivity.
Qed.

(** C8. For each stabilised counter, a poll whose sample is null returns
    the stored [last_valid] and leaves it as it was, and returns null
    when nothing has been stored yet; the sample is null when the
    snapshot is missing or empty, when it has no statistics blob, and
    when the blob does not decode. *)
Theorem null_sample_keeps_last_valid (m : metric) :
  (∀ data last,
     poll_sample b64decode (field m) data = None →
     native_value b64decode m data last = inr (last, last)) ∧
  (∀ data,
     poll_sample b64decode (field m) data = None →
     native_value b64decode m data None = inr (None, None)) ∧
  (∀ data, no_data data = true → poll_sample b64decode (field m) data = None) ∧
  (∀ d, d !! "167" = None → poll_sample b64decode (field m) (Some d) = None) ∧
  (∀ d v e, d !! "167" = Some v → base64_b64decode b64decode v = inl e →
            poll_sample b64decode (field m) (Some d) = None).
Proof.
  assert (Hnull : ∀ data last,
            poll_sample b64decode (field m) data = None →
            native_value b64decode m data last = inr (last, last)).
  { intros data last Hs. now rewrite native_value_update, Hs. }
  split; [exact Hnull |]. split; [intros data; apply Hnull |].
  split; [| split].
  - intros [d |] Hnd; [| reflexivity].
    unfold no_data in Hnd. apply bool_decide_eq_true_1 in Hnd. subst d.
    unfold poll_sample. cbn. now rewrite lookup_empty.
  - intros d Hd. unfold poll_sample. cbn. now rewrite Hd.
  - intros d v e Hd Hdec. unfold poll_sample. cbn. rewrite Hd. cbn.
    rewrite (parse_failed _ _ _ Hdec).
    destruct (truthy v); [| reflexivity]. now destruct m.
Qed.

(** C10. For each stabilised counter, polled from its initial state over
    any sequence of snapshots: no poll raises, and after each poll whose
    sample is non-null the returned value and the stored [last_valid] are
    both the greatest of the non-null samples seen so far. *)
Theorem stabilizer_running_maximum (m : metric) (polls : list snapshot) :
  ∃ trace,
    poll_all (native_value b64decode m) polls None = inr trace ∧
    length trace = length polls ∧
    ∀ n data,
      polls !! n = Some data →
      poll_sample b64decode (field m) data ≠ None →
      trace !! n =
      Some (running_max (poll_sample b64decode (field m) <$> take (S n) polls),
            running_max (poll_sample b64decode (field m) <$> take (S n) polls)).
Proof.
  rewrite poll_all_update_all. eexists. split; [reflexivity |].
  split; [now rewrite update_all_length, length_fmap |].
  intros n data Hn _. unfold running_max. rewrite fmap_take.
  apply (update_all_lookup _ _ _ (poll_sample b64decode (field m) data)).
  now rewrite list_lookup_fmap, Hn.
Qed.

(** C9. The battery sensor never raises.  With no snapshot it returns
    null; otherwise it returns DP 8 converted to an integer when that is
    an integer from 0 to 100, else DP 163 under the same condition, else
    null. *)
Theorem battery_primary_then_fallback (data : snapshot) :
  BatteryPercentageSensor_native_value int_of_text data
  = inr (match data with
         | None => None
         | Some d =>
             match valid_battery int_of_text (d !! "8") with
             | Some battery => Some battery
             | None => valid_battery int_of_text (d !! "163")
             end
         end).
Proof.
  assert (Hfrom : ∀ (d : gmap string Value) key,
            battery_from int_of_text d key
            = inr (valid_battery int_of_text (d !! key))).
  { intros d key. unfold battery_from, dict_get, valid_battery.
    destruct (d !! key) as [v |]; [| reflexivity].
    cbn [default from_option id mbind option_bind].
    destruct v as [| b | n | s]; cbn [is_None]; [reflexivity | | |];
      unfold battery_try; cbn [py_int].
    - destruct b; reflexivity.
    - destruct (Z.leb_spec 0 n), (Z.leb_spec n 100); cbn [andb];
        case_bool_decide; (reflexivity || lia).
    - destruct (int_of_text s) as [n |]; [| reflexivity].
      destruct (Z.leb_spec 0 n), (Z.leb_spec n 100); cbn [andb];
        case_bool_decide; (reflexivity || lia). }
  destruct data as [d |]; [| reflexivity].
  unfold BatteryPercentageSensor_native_value, no_data.
  case_bool_decide as Hd.
  - subst d. now rewrite !lookup_empty.
  - rewrite !Hfrom.
    destruct (valid_battery int_of_text (d !! "8")); [reflexivity |].
    now destruct (valid_battery int_of_text (d !! "163")).
Qed.

End SensorProperties.

(** ** The varint decoder *)

Lemma decode_varint_loop_step (data : bytes) (value shift pos : Z) :
  decode_varint_loop data value shift pos =
  if decide (pos < len data) then
    match getitem data pos with
    | inl e => inl e
    | inr byte =>
        if decide (Z.land byte 0x80 = 0) then
          inr (Z.lor value (Z.shiftl (Z.land byte 0x7F) shift), pos + 1)
        else
          decode_varint_loop data
            (Z.lor value (Z.shiftl (Z.land byte 0x7F) shift)) (shift + 7) (pos + 1)
    end
  else inr (value, pos).
Proof.
  rewrite decode_varint_loop_equation_1.
  destruct (Z_lt_dec pos (len data)) as [Hlt | Hge]; cbn;
    case_decide; try lia; [| reflexivity].
  destruct (getitem data pos) as [e | byte]; cbn; [reflexivity |].
  destruct (Z.eq_dec (Z.land byte 128) 0); cbn; case_decide; (reflexivity || lia).
Qed.

Lemma encode_varint_step (v : Z) :
  encode_varint v =
  if decide (v < 128) then [v]
  else Z.lor (Z.land v 0x7F) 0x80 :: encode_varint (Z.shiftr v 7).
Proof.
  rewrite encode_varint_equation_1.
  destruct (Z_lt_dec v 128); cbn; case_decide; (reflexivity || lia).
Qed.

(** Within [-len .. len-1] an index is in range. *)
Lemma getitem_in_range (data : bytes) (i : Z) :
  - len data ≤ i < len data → ∃ b, getitem data i = inr b.
Proof.
  intros Hi. unfold getitem.
  set (j := if i <? 0 then i + len data else i).
  assert (Hj : 0 ≤ j < len data) by (subst j; destruct (Z.ltb_spec i 0); lia).
  destruct (Z.ltb_spec j 0); [lia |].
  destruct (Z.leb_spec (len data) j); [lia |]. cbn.
  destruct (lookup_lt_is_Some_2 data (Z.to_nat j)) as [b ->]; [unfold len in Hj; lia |].
  eauto.
Qed.

(** From a start in range the loop returns, and has consumed the bytes up
    to the position it gives. *)
Lemma decode_varint_loop_consumed (data : bytes) (n : nat) :
  ∀ value shift pos,
    - len data ≤ pos → (Z.to_nat (len data - pos) ≤ n)%nat →
    ∃ value' pos',
      decode_varint_loop data value shift pos = inr (value', pos') ∧
      consumed data pos pos'.
Proof.
  induction n as [| n IH]; intros value shift pos Hlo Hn;
    rewrite decode_varint_loop_step; unfold consumed;
    destruct (decide (pos < len data)) as [Hlt | Hge]; try lia;
    try (exists value, pos; split; reflexivity).
  destruct (getitem_in_range data pos) as [b Hb]; [lia |]. rewrite Hb.
  destruct (decide (Z.land b 0x80 = 0)) as [Hterm | Hcont].
  - eexists _, _. split; [reflexivity |].
    split; [lia |]. split; [intros p Hp; lia |].
    right. exists b. now replace (pos + 1 - 1) with pos by lia.
  - destruct (IH (Z.lor value (Z.shiftl (Z.land b 0x7F) shift)) (shift + 7) (pos + 1))
      as (value' & pos' & -> & Hcons); [lia | lia |].
    exists value', pos'. split; [reflexivity |].
    unfold consumed in Hcons.
    destruct (decide (pos + 1 < len data)) as [Hlt' | Hge'].
    + destruct Hcons as (Hrange & Hall & Hend).
      split; [lia |]. split; [| exact Hend].
      intros p Hp. destruct (decide (p = pos)) as [-> | Hne]; [eauto |].
      apply Hall. lia.
    + subst pos'. split; [lia |]. split; [intros p Hp; lia |]. left. lia.
Qed.

Lemma getitem_lookup (data : bytes) (p b : Z) :
  0 ≤ p → getitem data p = inr b → data !! Z.to_nat p = Some b.
Proof.
  intros Hp. unfold getitem.
  destruct (Z.ltb_spec p 0); [lia |].
  destruct ((p <? 0) || (len data <=? p)); [discriminate |].
  destruct (data !! Z.to_nat p); [congruence | discriminate].
Qed.

(** C7. For every byte sequence and every start position in it or past
    its end (a position is an offset, 0 or more), [decode_varint] raises
    nothing.  From a start at or past the end it consumes nothing and
    returns 0 with the start itself.  Otherwise it consumes the bytes
    from the start up to, and not including, the position it returns:
    every one of them but the last has its continuation bit set, and the
    last is a terminal byte or the last byte of the input.  So it stops
    at the end of the input even when the continuation bit is set on the
    last available byte. *)
Theorem decode_varint_stops_at_end (data : bytes) (start_pos : Z) :
  0 ≤ start_pos →
  ∃ value pos,
    decode_varint data start_pos = inr (value, pos) ∧
    (len data ≤ start_pos → value = 0 ∧ pos = start_pos) ∧
    (start_pos < len data →
     start_pos < pos ≤ len data ∧
     (∀ p, start_pos ≤ p < pos - 1 →
           ∃ b, data !! Z.to_nat p = Some b ∧ Z.land b 0x80 ≠ 0) ∧
     (pos = len data ∨
      ∃ b, data !! Z.to_nat (pos - 1) = Some b ∧ Z.land b 0x80 = 0) ∧
     ((∀ p, start_pos ≤ p < len data →
            ∃ b, data !! Z.to_nat p = Some b ∧ Z.land b 0x80 ≠ 0) →
      pos = len data)).
Proof.
  intros Hlo. pose proof (len_nonneg data) as Hlen.
  destruct (decode_varint_loop_consumed data (Z.to_nat (len data - start_pos))
              0 0 start_pos ltac:(lia) (le_n _)) as (value & pos & Hdec & Hcons).
  exists value, pos. split; [exact Hdec |].
  unfold consumed in Hcons. split.
  - intros Hpast. unfold decode_varint in Hdec.
    rewrite decode_varint_loop_step, decide_False in Hdec by lia.
    injection Hdec as <- <-. split; reflexivity.
  - intros Hlt. destruct (decide (start_pos < len data)); [| lia].
    destruct Hcons as (Hrange & Hall & Hend).
    assert (Hall' : ∀ p, start_pos ≤ p < pos - 1 →
                         ∃ b, data !! Z.to_nat p = Some b ∧ Z.land b 0x80 ≠ 0).
    { intros p Hp. destruct (Hall p Hp) as (b & Hb & Hc).
      exists b. split; [apply getitem_lookup; [lia | exact Hb] | exact Hc]. }
    assert (Hend' : pos = len data ∨
              ∃ b, data !! Z.to_nat (pos - 1) = Some b ∧ Z.land b 0x80 = 0).
    { destruct Hend as [Hend | (b & Hb & Ht)]; [now left | right].
      exists b. split; [apply getitem_lookup; [lia | exact Hb] | exact Ht]. }
    split; [exact Hrange |]. split; [exact Hall' |]. split; [exact Hend' |].
    intros Hcont. destruct Hend' as [Hend' | (b & Hb & Ht)]; [exact Hend' |].
    destruct (Hcont (pos - 1)) as (b' & Hb' & Hc'); [lia |]. congruence.
Qed.

(** *** Round trip *)

Lemma land_0x7F_small (v : Z) : 0 ≤ v < 128 → Z.land v 0x7F = v.
Proof.
  intros Hv. change 0x7F with (Z.ones 7).
  rewrite Z.land_ones by lia. apply Z.mod_small. exact Hv.
Qed.

Lemma land_0x80_small (v : Z) : 0 ≤ v < 128 → Z.land v 0x80 = 0.
Proof.
  intros Hv. rewrite land_0x80_bit7.
  replace (Z.testbit v 7) with false; [reflexivity |].
  symmetry. apply not_true_is_false. rewrite Z.testbit_true by lia.
  change (2 ^ 7) with 128. rewrite Z.div_small by lia. discriminate.
Qed.

Lemma continuation_byte_low (v : Z) :
  Z.land (Z.lor (Z.land v 0x7F) 0x80) 0x7F = Z.land v 0x7F.
Proof.
  rewrite Z.land_lor_distr_l, <- Z.land_assoc.
  change (Z.land 0x7F 0x7F) with 0x7F. change (Z.land 0x80 0x7F) with 0.
  apply Z.lor_0_r.
Qed.

Lemma continuation_byte_high (v : Z) :
  Z.land (Z.lor (Z.land v 0x7F) 0x80) 0x80 ≠ 0.
Proof.
  rewrite Z.land_lor_distr_l, <- Z.land_assoc.
  change (Z.land 0x7F 0x80) with 0. change (Z.land 0x80 0x80) with 0x80.
  rewrite Z.land_0_r, Z.lor_0_l. discriminate.
Qed.

(** A seven-bit group and the groups above it, put back together. *)
Lemma groups_join (v shift : Z) :
  0 ≤ shift →
  Z.lor (Z.shiftl (Z.land v 0x7F) shift) (Z.shiftl (Z.shiftr v 7) (shift + 7))
  = Z.shiftl v shift.
Proof.
  intros Hs. apply Z.bits_inj'. intros n Hn.
  rewrite Z.lor_spec, !Z.shiftl_spec by lia.
  change 0x7F with (Z.ones 7).
  destruct (Z_lt_dec (n - shift) 0) as [Hneg | Hpos].
  - rewrite !Z.testbit_neg_r by lia. reflexivity.
  - rewrite Z.land_spec.
    destruct (Z_lt_dec (n - shift) 7) as [Hlow | Hhigh].
    + rewrite Z.ones_spec_low by lia.
      rewrite (Z.testbit_neg_r _ (n - (shift + 7))) by lia.
      now rewrite andb_true_r, orb_false_r.
    + rewrite Z.ones_spec_high by lia.
      rewrite Z.shiftr_spec by lia.
      rewrite andb_false_r, orb_false_l. f_equal. lia.
Qed.

(** Decoding from the first byte of an encoded integer, wherever it lies
    in the input and whatever was accumulated before. *)
Lemma decode_varint_loop_encoded (v : Z) :
  0 ≤ v →
  ∀ (pre post : bytes) (value shift : Z),
    0 ≤ shift →
    decode_varint_loop (pre ++ encode_varint v ++ post) value shift (len pre)
    = inr (Z.lor value (Z.shiftl v shift), len pre + len (encode_varint v)).
Proof.
  intros Hv. pattern v. apply Zlt_0_ind; [| exact Hv].
  clear v Hv. intros v IH Hv pre post value shift Hs.
  rewrite decode_varint_loop_step, (encode_varint_step v).
  destruct (decide (v < 128)) as [Hsmall | Hbig].
  - cbn [app]. rewrite getitem_app_at.
    rewrite decide_True by (rewrite len_app; unfold len; cbn; lia).
    rewrite decide_True by (apply land_0x80_small; lia).
    rewrite land_0x7F_small by lia. reflexivity.
  - set (b := Z.lor (Z.land v 0x7F) 0x80).
    cbn [app]. rewrite getitem_app_at.
    rewrite decide_True by (rewrite len_app; unfold len; cbn; lia).
    rewrite decide_False by apply continuation_byte_high.
    unfold b at 2. rewrite continuation_byte_low.
    assert (Hshr : 0 ≤ Z.shiftr v 7 < v).
    { rewrite Z.shiftr_div_pow2 by lia. change (2 ^ 7) with 128.
      split; [apply Z.div_pos; lia | apply Z.div_lt; lia]. }
    replace (pre ++ b :: encode_varint (Z.shiftr v 7) ++ post)
      with ((pre ++ [b]) ++ encode_varint (Z.shiftr v 7) ++ post)
      by (now rewrite <- app_assoc).
    replace (len pre + 1) with (len (pre ++ [b]))
      by (rewrite len_app; reflexivity).
    rewrite (IH _ Hshr) by lia.
    rewrite <- Z.lor_assoc, groups_join by lia.
    do 2 f_equal. rewrite len_app. unfold len. cbn [length]. lia.
Qed.

Lemma decode_varints_encoded (vs : list Z) :
  Forall (λ v, 0 ≤ v) vs →
  ∀ pre post : bytes,
    decode_varints (pre ++ encode_varints vs ++ post) (len pre) (length vs)
    = inr (expected_decodes vs (len pre)).
Proof.
  induction 1 as [| v vs Hv _ IH]; intros pre post; [reflexivity |].
  cbn [decode_varints expected_decodes length].
  unfold encode_varints, decode_varint in *. cbn [map concat].
  rewrite <- (app_assoc (encode_varint v)).
  rewrite (decode_varint_loop_encoded v Hv) by lia.
  rewrite Z.lor_0_l, Z.shiftl_0_r.
  rewrite (app_assoc pre), <- len_app, IH. reflexivity.
Qed.

(** C6. For unsigned integers each below [2^21], encoded one after the
    other, [decode_varint] applied repeatedly from position 0 gives back
    each value, and each call returns the position just after the last
    byte of the integer it decoded. *)
Theorem varint_round_trip (vs : list Z) :
  Forall (λ v, 0 ≤ v < 2 ^ 21) vs →
  decode_varints (encode_varints vs) 0 (length vs) = inr (expected_decodes vs 0).
Proof.
  intros Hvs.
  pose proof (decode_varints_encoded vs) as H.
  specialize (H ltac:(eapply Forall_impl; [exact Hvs | cbn; lia]) [] []).
  cbn [app] in H. rewrite app_nil_r in H. exact H.
Qed.

(** The encoder writes the form the design document describes: every byte
    but the last has bit 7 set, the last has it clear, and all are
    bytes. *)
Lemma encode_varint_shape (v : Z) :
  0 ≤ v →
  ∃ init last,
    encode_varint v = init ++ [last] ∧
    Forall (λ b, 128 ≤ b < 256) init ∧ 0 ≤ last < 128.
Proof.
  intros Hv. pattern v. apply Zlt_0_ind; [| exact Hv].
  clear v Hv. intros v IH Hv. rewrite encode_varint_step.
  destruct (decide (v < 128)) as [Hsmall | Hbig].
  - exists [], v. split; [reflexivity |]. split; [constructor | lia].
  - assert (Hshr : 0 ≤ Z.shiftr v 7 < v).
    { rewrite Z.shiftr_div_pow2 by lia. change (2 ^ 7) with 128.
      split; [apply Z.div_pos; lia | apply Z.div_lt; lia]. }
    destruct (IH _ Hshr) as (init & last & -> & Hinit & Hlast).
    exists (Z.lor (Z.land v 0x7F) 0x80 :: init), last.
    split; [reflexivity |]. split; [| exact Hlast].
    constructor; [| exact Hinit].
    change 0x7F with (Z.ones 7). rewrite Z.land_ones by lia.
    change (2 ^ 7) with 128.
    pose proof (Z.mod_pos_bound v 128 ltac:(lia)) as Hm.
    rewrite <- Z.add_nocarry_lor.
    + lia.
    + rewrite <- (land_0x80_small (v mod 128) Hm). reflexivity.
Qed.

(** ** Concrete runs *)

Example decode_varint_300 : decode_varint [0xAC; 0x02; 0x07] 0 = inr (300, 2).
Proof. reflexivity. Qed.

Example decode_varint_truncated : decode_varint [0x07; 0xAC] 1 = inr (44, 2).
Proof. reflexivity. Qed.

Example encode_varint_300 : encode_varint 300 = [0xAC; 0x02].
Proof. reflexivity. Qed.

Example b64decode_ref_GAc : b64decode_ref "GAc=" = inr [0x18; 0x07].
Proof. reflexivity. Qed.

Example b64decode_ref_short : b64decode_ref "GAc" = inl BinasciiError.
Proof. reflexivity. Qed.

Example int_of_text_ref_87 : int_of_text_ref "87" = Some 87.
Proof. reflexivity. Qed.

Example parse_count_and_area :
  parse_dps167_statistics b64decode_ref (VStr "Cg4AAAAAAAAAAAAAAACUARgH")
  = inr (<["total_area" := Some 148]> (<["total_count" := Some 7]> stats_init)).
Proof. vm_compute. reflexivity. Qed.

Example battery_fallback :
  BatteryPercentageSensor_native_value int_of_text_ref
    (Some {["8" := VInt 250; "163" := VStr "87"]}) = inr (Some 87).
Proof. vm_compute. reflexivity. Qed.

(** ** The theorems at concrete inputs *)

Lemma stabilizer_monotonicity_witness :
  (∃ trace,
     poll_all (native_value b64decode_ref Count)
       [snapshot_167 "GAU="; snapshot_167 "GAk="; snapshot_167 "GAM=";
        snapshot_167 "GAw="] None = inr trace ∧
     trace.*1 = [Some 5; Some 9; Some 9; Some 12]) ∧
  native_value b64decode_ref Count (snapshot_167 "GAM=") (Some 9)
  = inr (Some 9, Some 9).
Proof.
  destruct (stabilizer_monotonicity b64decode_ref Count) as (_ & Hlow & Hex).
  split.
  - apply Hex; reflexivity.
  - apply (Hlow (snapshot_167 "GAM=") 9 3); [reflexivity | lia].
Defined.

Lemma total_count_by_tag_priority_witness :
  (∃ stats,
     parse_dps167_statistics b64decode_ref (VStr "GAc=") = inr stats ∧
     stats !! "total_count" = Some (Some 7)) ∧
  (∃ stats,
     parse_dps167_statistics b64decode_ref (VStr "GJQB") = inr stats ∧
     stats !! "total_count" = Some (Some 148)).
Proof.
  split.
  - destruct (total_count_by_tag_priority b64decode_ref (VStr "GAc=")
                [0x18; 0x07] eq_refl) as (stats & Hp & _ & H7 & _).
    exists stats. split; [exact Hp | apply (H7 []); reflexivity].
  - destruct (total_count_by_tag_priority b64decode_ref (VStr "GJQB")
                [0x18; 0x94; 0x01] eq_refl) as (stats & Hp & _ & _ & H148).
    exists stats. split; [exact Hp | apply (H148 []); reflexivity].
Defined.

Lemma total_area_at_14_15_witness :
  (∃ stats,
     parse_dps167_statistics b64decode_ref (VStr "Cg4AAAAAAAAAAAAAAACUARgH")
     = inr stats ∧
     stats !! "total_area" = Some (Some 148)) ∧
  (∃ stats,
     parse_dps167_statistics b64decode_ref (VStr "AAECAwQFBgcICQoLDA0O")
     = inr stats ∧
     stats !! "total_area" = Some None).
Proof.
  split.
  - destruct (total_area_at_14_15 b64decode_ref (VStr "Cg4AAAAAAAAAAAAAAACUARgH")
                [10; 14; 0; 0; 0; 0; 0; 0; 0; 0; 0; 0; 0; 0; 148; 1; 24; 7] eq_refl)
      as (stats & Hp & _ & _ & H148).
    exists stats. split; [exact Hp |].
    apply H148; [unfold len; cbn; lia | reflexivity | reflexivity].
  - destruct (total_area_at_14_15 b64decode_ref (VStr "AAECAwQFBgcICQoLDA0O")
                [0; 1; 2; 3; 4; 5; 6; 7; 8; 9; 10; 11; 12; 13; 14] eq_refl)
      as (stats & Hp & _ & Hshort & _).
    exists stats. split; [exact Hp |].
    apply Hshort. unfold len. cbn. lia.
Defined.

Lemma parse_absorbs_failures_witness :
  (∃ stats,
     parse_dps167_statistics b64decode_ref (VStr "GAc") = inr stats ∧
     stats !! "total_count" = Some None ∧ stats !! "total_area" = Some None) ∧
  (∃ stats,
     parse_dps167_statistics b64decode_ref (VStr EmptyString) = inr stats ∧
     stats !! "total_count" = Some None ∧ stats !! "total_area" = Some None).
Proof.
  destruct (parse_absorbs_failures b64decode_ref) as (Hfail & Hempty & _).
  split.
  - apply (Hfail (VStr "GAc") BinasciiError). reflexivity.
  - apply (Hempty (VStr EmptyString)). reflexivity.
Defined.

(** C5, as the design document states it, fails: the dict returned for
    the blob [0x18, 0x07] holds [total_time_mins], with the value null. *)
Lemma time_field_absent_counterexample :
  parse_dps167_statistics b64decode_ref (VStr "GAc=")
  = inr (<["total_count" := Some 7]> stats_init) ∧
  (<["total_count" := Some 7]> stats_init) !! "total_time_mins" = Some None ∧
  (<["total_count" := Some 7]> stats_init) !! "total_time_mins" ≠ None.
Proof.
  split; [vm_compute; reflexivity |].
  split; [vm_compute; reflexivity | vm_compute; discriminate].
Qed.

Lemma varint_round_trip_witness :
  decode_varints (encode_varints [0; 127; 128; 300; 16384; 2097151]) 0 6
  = inr [(0, 1); (127, 2); (128, 4); (300, 6); (16384, 9); (2097151, 12)].
Proof.
  apply (varint_round_trip [0; 127; 128; 300; 16384; 2097151]).
  repeat constructor; lia.
Defined.

(** A start below the sequence is not a position of it: there the first
    [data[pos]] raises [IndexError]. *)
Example decode_varint_below_sequence :
  decode_varint [0x81] (-2) = inl IndexError.
Proof. reflexivity. Qed.

Lemma decode_varint_stops_at_end_witness :
  ∃ value pos,
    decode_varint [0x07; 0xAC] 1 = inr (value, pos) ∧
    (len [0x07; 0xAC] ≤ 1 → value = 0 ∧ pos = 1) ∧
    (1 < len [0x07; 0xAC] →
     1 < pos ≤ len [0x07; 0xAC] ∧
     (∀ p, 1 ≤ p < pos - 1 →
           ∃ b, [0x07; 0xAC] !! Z.to_nat p = Some b ∧ Z.land b 0x80 ≠ 0) ∧
     (pos = len [0x07; 0xAC] ∨
      ∃ b, [0x07; 0xAC] !! Z.to_nat (pos - 1) = Some b ∧ Z.land b 0x80 = 0) ∧
     ((∀ p, 1 ≤ p < len [0x07; 0xAC] →
            ∃ b, [0x07; 0xAC] !! Z.to_nat p = Some b ∧ Z.land b 0x80 ≠ 0) →
      pos = len [0x07; 0xAC])).
Proof.
  apply (decode_varint_stops_at_end [0x07; 0xAC] 1).
  lia.
Defined.

Lemma null_sample_keeps_last_valid_witness :
  native_value b64decode_ref Area None (Some 50) = inr (Some 50, Some 50) ∧
  native_value b64decode_ref Area (snapshot_167 "GAc") None = inr (None, None) ∧
  poll_sample b64decode_ref (field Area) (Some ∅) = None ∧
  poll_sample b64decode_ref (field Area) (Some {["8" := VInt 50]}) = None ∧
  poll_sample b64decode_ref (field Area) (snapshot_167 "GAc") = None.
Proof.
  destruct (null_sample_keeps_last_valid b64decode_ref Area)
    as (Hkeep & Hfresh & Hnodata & Hnoblob & Hbad).
  split; [apply Hkeep; reflexivity |].
  split; [apply Hfresh; reflexivity |].
  split; [apply Hnodata; reflexivity |].
  split; [apply Hnoblob; reflexivity |].
  apply (Hbad {["167" := VStr "GAc"]} (VStr "GAc") BinasciiError); reflexivity.
Defined.

Lemma stabilizer_running_maximum_witness :
  ∃ trace,
    poll_all (native_value b64decode_ref Count)
      [snapshot_167 "GAk="; None; snapshot_167 "GAM="] None = inr trace ∧
    trace !! 2%nat = Some (Some 9, Some 9).
Proof.
  destruct (stabilizer_running_maximum b64decode_ref Count
              [snapshot_167 "GAk="; None; snapshot_167 "GAM="])
    as (trace & Hrun & _ & Hmax).
  exists trace. split; [exact Hrun |].
  apply (Hmax 2%nat (snapshot_167 "GAM=")); [reflexivity | vm_compute; discriminate].
Defined.

(** * Further properties of the code *)

(** ** [decode_varint] *)

Lemma lor_shiftl_disjoint (a g s : Z) :
  0 ≤ s → 0 ≤ a < 2 ^ s → Z.lor a (Z.shiftl g s) = a + g * 2 ^ s.
Proof.
  intros Hs Ha. rewrite <- Z.shiftl_mul_pow2 by lia.
  symmetry. apply Z.add_nocarry_lor.
  apply Z.bits_inj'. intros n Hn.
  rewrite Z.land_spec, Z.bits_0, Z.shiftl_spec by lia.
  destruct (Z_lt_dec n s) as [Hlow | Hhigh].
  - rewrite (Z.testbit_neg_r g) by lia. apply andb_false_r.
  - replace (Z.testbit a n) with false; [reflexivity |].
    symmetry. apply Z.testbit_false; [lia |].
    rewrite Z.div_small; [reflexivity |].
    assert (2 ^ s ≤ 2 ^ n) by (apply Z.pow_le_mono_r; lia). lia.
Qed.

Lemma land_0x7F_range (b : Z) : 0 ≤ Z.land b 0x7F < 128.
Proof.
  change 0x7F with (Z.ones 7). rewrite Z.land_ones by lia.
  apply Z.mod_pos_bound. reflexivity.
Qed.

(** X1. An encoded integer is decoded back wherever it lies in the input,
    whatever bytes follow it and however large it is. *)
Theorem decode_varint_encoded_anywhere (v : Z) (pre post : bytes) :
  0 ≤ v →
  decode_varint (pre ++ encode_varint v ++ post) (len pre)
  = inr (v, len pre + len (encode_varint v)).
Proof.
  intros Hv. unfold decode_varint.
  rewrite (decode_varint_loop_encoded v Hv) by lia.
  now rewrite Z.lor_0_l, Z.shiftl_0_r.
Qed.

Lemma getitem_app_r (pre data : bytes) (i : Z) :
  0 ≤ i < len data → getitem (pre ++ data) (len pre + i) = getitem data i.
Proof.
  intros Hi. destruct (byte_at_Some data i Hi) as [x Hx].
  rewrite (getitem_byte_at data i x Hx). apply getitem_byte_at.
  pose proof (len_nonneg pre). unfold byte_at in *.
  destruct (Z.ltb_spec i 0); [lia |].
  destruct (Z.ltb_spec (len pre + i) 0); [lia |].
  rewrite lookup_app_r by (unfold len; lia).
  rewrite <- Hx. f_equal. unfold len. lia.
Qed.

Lemma decode_varint_loop_app (pre data : bytes) (n : nat) :
  ∀ value shift pos,
    0 ≤ pos → (Z.to_nat (len data - pos) ≤ n)%nat →
    decode_varint_loop (pre ++ data) value shift (len pre + pos)
    = match decode_varint_loop data value shift pos with
      | inr (v, next) => inr (v, len pre + next)
      | inl e => inl e
      end.
Proof.
  induction n as [| n IH]; intros value shift pos Hpos Hn;
    rewrite (decode_varint_loop_step (pre ++ data)),
            (decode_varint_loop_step data), len_app;
    destruct (decide (pos < len data)) as [Hlt | Hge]; try lia;
    try (rewrite decide_False by lia; reflexivity).
  rewrite decide_True by lia.
  rewrite getitem_app_r by lia.
  destruct (getitem data pos) as [e | byte]; [reflexivity |].
  destruct (decide (Z.land byte 0x80 = 0)).
  - do 2 f_equal. lia.
  - replace (len pre + pos + 1) with (len pre + (pos + 1)) by lia.
    apply IH; lia.
Qed.

(** X2. Decoding from a non-negative position does not depend on the
    bytes before it: with a prefix put in front, the same value comes
    back and the position is moved by the prefix's length. *)
Theorem decode_varint_after_prefix (pre data : bytes) (start_pos : Z) :
  0 ≤ start_pos →
  decode_varint (pre ++ data) (len pre + start_pos)
  = match decode_varint data start_pos with
    | inr (value, pos) => inr (value, len pre + pos)
    | inl e => inl e
    end.
Proof.
  intros Hs. unfold decode_varint.
  apply (decode_varint_loop_app pre data (Z.to_nat (len data - start_pos))); lia.
Qed.

Lemma decode_varint_loop_bound (data : bytes) (n : nat) :
  ∀ value shift pos v next,
    (Z.to_nat (len data - pos) ≤ n)%nat →
    0 ≤ shift → 0 ≤ value < 2 ^ shift →
    decode_varint_loop data value shift pos = inr (v, next) →
    pos ≤ next ∧ 0 ≤ v < 2 ^ (shift + 7 * (next - pos)).
Proof.
  induction n as [| n IH]; intros value shift pos v next Hn Hs Hv;
    rewrite decode_varint_loop_step;
    destruct (decide (pos < len data)) as [Hlt | Hge]; try lia;
    try (intros [= <- <-]; replace (shift + 7 * (pos - pos)) with shift by lia;
         split; [lia | exact Hv]).
  destruct (getitem data pos) as [e | byte]; [discriminate |].
  pose proof (land_0x7F_range byte) as Hg.
  assert (Hnew : 0 ≤ Z.lor value (Z.shiftl (Z.land byte 0x7F) shift) < 2 ^ (shift + 7)).
  { rewrite lor_shiftl_disjoint by lia.
    rewrite Z.pow_add_r by lia. change (2 ^ 7) with 128. nia. }
  destruct (decide (Z.land byte 0x80 = 0)).
  - intros [= <- <-]. split; [lia |].
    now replace (shift + 7 * (pos + 1 - pos)) with (shift + 7) by lia.
  - intros Hrec. apply IH in Hrec; [| lia | lia | exact Hnew].
    destruct Hrec as [Hle Hb]. split; [lia |].
    now replace (shift + 7 * (next - pos)) with (shift + 7 + 7 * (next - (pos + 1))) by lia.
Qed.

(** X3. Whatever the input, a decoded value is never negative and has at
    most seven bits for each byte consumed; the returned position is
    never before the start. *)
Theorem decode_varint_value_bound (data : bytes) (start_pos value pos : Z) :
  decode_varint data start_pos = inr (value, pos) →
  start_pos ≤ pos ∧ 0 ≤ value < 2 ^ (7 * (pos - start_pos)).
Proof.
  intros Hdec.
  apply (decode_varint_loop_bound data (Z.to_nat (len data - start_pos))
           0 0 start_pos value pos) in Hdec; [exact Hdec | lia | lia |].
  change (2 ^ 0) with 1. lia.
Qed.

(** ** [parse_dps167_statistics] on real bytes *)

Lemma is_bytes_byte_at (data : bytes) (i x : Z) :
  is_bytes data → byte_at data i = Some x → 0 ≤ x < 256.
Proof.
  unfold is_bytes, byte_at. intros Hall Hx.
  destruct (i <? 0); [discriminate |].
  exact (proj1 (Forall_lookup _ data) Hall _ _ Hx).
Qed.

Lemma bit7_byte (b : Z) : 0 ≤ b < 256 → bit7 b = bool_decide (128 ≤ b).
Proof.
  intros Hb. unfold bit7. case_bool_decide as Hhigh.
  - apply Z.testbit_true; [lia |]. change (2 ^ 7) with 128.
    replace (b / 128) with 1; [reflexivity |].
    apply Z.div_unique with (r := b - 128); lia.
  - pose proof (land_0x80_small b ltac:(lia)) as H0.
    rewrite land_0x80_bit7 in H0. destruct (Z.testbit b 7); [discriminate | reflexivity].
Qed.

Lemma total_count_lookup (data : bytes) :
  (if len data =? 0 then stats_init
   else store_field "total_area" (spec_total_area data)
          (store_field "total_count" (spec_total_count data) stats_init))
    !! "total_count" = Some (spec_total_count data).
Proof.
  destruct (Z.eqb_spec (len data) 0) as [Hz | Hnz].
  - destruct data; [reflexivity | unfold len in Hz; cbn in Hz; lia].
  - rewrite store_field_lookup.
    + destruct (decide ("total_area" = "total_count")); [discriminate |].
      rewrite store_field_lookup by reflexivity. reflexivity.
    + rewrite store_field_lookup by reflexivity. reflexivity.
Qed.

Lemma spec_total_count_bound (data : bytes) (c : Z) :
  is_bytes data → spec_total_count data = Some c → 0 ≤ c < 2 ^ 22.
Proof.
  intros Hb. unfold spec_total_count.
  repeat match goal with
    | |- context [tag_at data ?i] => destruct (tag_at data i)
    end; try discriminate.
  - intros Hc. pose proof (is_bytes_byte_at _ _ _ Hb Hc). lia.
  - destruct (byte_at data (len data - 2)) as [b1 |] eqn:H1; [| discriminate].
    destruct (byte_at data (len data - 1)) as [b2 |] eqn:H2; [| discriminate].
    cbn [mbind option_bind]. intros [= <-].
    pose proof (is_bytes_byte_at _ _ _ Hb H1).
    pose proof (is_bytes_byte_at _ _ _ Hb H2).
    pose proof (land_0x7F_range b1).
    rewrite Z.shiftl_mul_pow2 by lia. change (2 ^ 7) with 128.
    destruct (bit7 b1); lia.
  - destruct (byte_at data (len data - 3)) as [b1 |] eqn:H1; [| discriminate].
    destruct (byte_at data (len data - 2)) as [b2 |] eqn:H2; [| discriminate].
    destruct (byte_at data (len data - 1)) as [b3 |] eqn:H3; [| discriminate].
    cbn [mbind option_bind]. intros [= <-].
    pose proof (is_bytes_byte_at _ _ _ Hb H1).
    pose proof (is_bytes_byte_at _ _ _ Hb H2).
    pose proof (is_bytes_byte_at _ _ _ Hb H3).
    pose proof (land_0x7F_range b1). pose proof (land_0x7F_range b2).
    rewrite !Z.shiftl_mul_pow2 by lia.
    change (2 ^ 7) with 128. change (2 ^ 14) with 16384.
    destruct (bit7 b1), (bit7 b2); cbn [andb]; lia.
Qed.

Lemma spec_total_area_bound (data : bytes) (a : Z) :
  is_bytes data → spec_total_area data = Some a → 0 ≤ a < 2 ^ 15.
Proof.
  intros Hb. unfold spec_total_area.
  destruct (16 <=? len data); [| discriminate].
  destruct (byte_at data 14) as [b1 |] eqn:H1; [| discriminate].
  destruct (byte_at data 15) as [b2 |] eqn:H2; [| discriminate].
  cbn [mbind option_bind]. intros [= <-].
  pose proof (is_bytes_byte_at _ _ _ Hb H1).
  pose proof (is_bytes_byte_at _ _ _ Hb H2).
  pose proof (land_0x7F_range b1).
  rewrite Z.shiftl_mul_pow2 by lia. change (2 ^ 7) with 128.
  destruct (bit7 b1); lia.
Qed.

(** One turn of the decoder's loop on a byte that is there. *)
Lemma decode_varint_loop_at (data : bytes) (value shift pos b : Z) :
  byte_at data pos = Some b →
  decode_varint_loop data value shift pos
  = if decide (Z.land b 0x80 = 0) then
      inr (Z.lor value (Z.shiftl (Z.land b 0x7F) shift), pos + 1)
    else
      decode_varint_loop data
        (Z.lor value (Z.shiftl (Z.land b 0x7F) shift)) (shift + 7) (pos + 1).
Proof.
  intros Hb. pose proof (byte_at_inv _ _ _ Hb).
  rewrite decode_varint_loop_step, decide_True by lia.
  now rewrite (getitem_byte_at _ _ _ Hb).
Qed.

(** The same turn on a terminal byte and on a continuation byte. *)
Lemma decode_varint_loop_terminal (data : bytes) (value shift pos b : Z) :
  byte_at data pos = Some b → 0 ≤ b < 128 →
  0 ≤ shift → 0 ≤ value < 2 ^ shift →
  decode_varint_loop data value shift pos = inr (value + b * 2 ^ shift, pos + 1).
Proof.
  intros Hb Hr Hs Hv. rewrite (decode_varint_loop_at _ _ _ _ _ Hb).
  rewrite decide_True by (now apply land_0x80_small).
  now rewrite land_0x7F_small, lor_shiftl_disjoint.
Qed.

Lemma decode_varint_loop_continue (data : bytes) (value shift pos b : Z) :
  byte_at data pos = Some b → 128 ≤ b < 256 →
  0 ≤ shift → 0 ≤ value < 2 ^ shift →
  decode_varint_loop data value shift pos
  = decode_varint_loop data (value + Z.land b 0x7F * 2 ^ shift) (shift + 7) (pos + 1).
Proof.
  intros Hb Hr Hs Hv. rewrite (decode_varint_loop_at _ _ _ _ _ Hb).
  rewrite decide_False.
  - now rewrite lor_shiftl_disjoint.
  - rewrite land_0x80_bit7. fold (bit7 b). rewrite bit7_byte by lia.
    rewrite bool_decide_eq_true_2 by lia. discriminate.
Qed.

Section ParserOnBytes.

Variable b64decode : string → exn + bytes.

(** X4. On real bytes the parser's numbers are bounded: a count it
    reports is from 0 to [2^22 - 1], an area from 0 to [2^15 - 1]. *)
Theorem parse_values_bounded (v : Value) (data : bytes) :
  base64_b64decode b64decode v = inr data →
  is_bytes data →
  ∃ stats,
    parse_dps167_statistics b64decode v = inr stats ∧
    (∀ c, stats !! "total_count" = Some (Some c) → 0 ≤ c < 2 ^ 22) ∧
    (∀ a, stats !! "total_area" = Some (Some a) → 0 ≤ a < 2 ^ 15).
Proof.
  intros Hdec Hb. rewrite (parse_decoded _ _ _ Hdec).
  eexists. split; [reflexivity |].
  rewrite total_count_lookup, total_area_lookup. split.
  - intros c [= Hc]. now apply (spec_total_count_bound data).
  - intros a [= Ha]. now apply (spec_total_area_bound data).
Qed.

(** X5. On real bytes whose last byte is a terminal one (below 128), the
    count the parser reports is the value [decode_varint] reads just
    after the tag that the parser found. *)
Theorem total_count_is_decode_varint (v : Value) (data : bytes) (t last : Z) :
  base64_b64decode b64decode v = inr data →
  is_bytes data →
  tag_position data = Some t →
  byte_at data (len data - 1) = Some last → last < 128 →
  ∃ stats c pos,
    parse_dps167_statistics b64decode v = inr stats ∧
    stats !! "total_count" = Some (Some c) ∧
    decode_varint data (t + 1) = inr (c, pos).
Proof.
  intros Hdec Hb Htag Hlast Hterm. rewrite (parse_decoded _ _ _ Hdec).
  pose proof (is_bytes_byte_at _ _ _ Hb Hlast) as Hl.
  enough (∃ c pos, spec_total_count data = Some c ∧
                   decode_varint data (t + 1) = inr (c, pos))
    as (c & pos & Hc & Hd).
  { eexists _, c, pos. split; [reflexivity |].
    rewrite total_count_lookup, Hc. auto. }
  unfold tag_position in Htag. unfold spec_total_count, decode_varint.
  destruct (tag_at data (len data - 2)).
  { injection Htag as <-. replace (len data - 2 + 1) with (len data - 1) by lia.
    rewrite (decode_varint_loop_terminal _ _ _ _ _ Hlast) by (change (2 ^ 0) with 1; lia).
    exists last. eexists. split; [exact Hlast |]. do 2 f_equal. lia. }
  destruct (tag_at data (len data - 3)) eqn:Htag3.
  { injection Htag as <-. replace (len data - 3 + 1) with (len data - 2) by lia.
    pose proof (tag_at_inv _ _ Htag3).
    destruct (byte_at_Some data (len data - 2)) as [b1 H1]; [lia |].
    pose proof (is_bytes_byte_at _ _ _ Hb H1).
    pose proof (land_0x7F_range b1).
    rewrite H1, Hlast. cbn [mbind option_bind].
    rewrite (bit7_byte b1) by lia. case_bool_decide.
    - rewrite (decode_varint_loop_continue _ _ _ _ _ H1) by (change (2 ^ 0) with 1; lia).
      replace (len data - 2 + 1) with (len data - 1) by lia.
      rewrite (decode_varint_loop_terminal _ _ _ _ _ Hlast)
        by (change (2 ^ (0 + 7)) with 128; change (2 ^ 0) with 1; lia).
      eexists _, _. split; [reflexivity |]. do 2 f_equal.
      rewrite Z.shiftl_mul_pow2 by lia. change (2 ^ 0) with 1. lia.
    - rewrite (decode_varint_loop_terminal _ _ _ _ _ H1) by (change (2 ^ 0) with 1; lia).
      eexists _, _. split; [reflexivity |]. do 2 f_equal. lia. }
  destruct (tag_at data (len data - 4)) eqn:Htag4; [| discriminate].
  injection Htag as <-. replace (len data - 4 + 1) with (len data - 3) by lia.
  pose proof (tag_at_inv _ _ Htag4).
  destruct (byte_at_Some data (len data - 3)) as [b1 H1]; [lia |].
  destruct (byte_at_Some data (len data - 2)) as [b2 H2]; [lia |].
  pose proof (is_bytes_byte_at _ _ _ Hb H1).
  pose proof (is_bytes_byte_at _ _ _ Hb H2).
  pose proof (land_0x7F_range b1). pose proof (land_0x7F_range b2).
  rewrite H1, H2, Hlast. cbn [mbind option_bind].
  rewrite (bit7_byte b1), (bit7_byte b2) by lia.
  destruct (bool_decide_reflect (128 ≤ b1)) as [Hc1 | Ht1]; cbn [andb].
  - rewrite (decode_varint_loop_continue _ _ _ _ _ H1) by (change (2 ^ 0) with 1; lia).
    replace (len data - 3 + 1) with (len data - 2) by lia.
    destruct (bool_decide_reflect (128 ≤ b2)) as [Hc2 | Ht2].
    + rewrite (decode_varint_loop_continue _ _ _ _ _ H2)
        by (change (2 ^ (0 + 7)) with 128; change (2 ^ 0) with 1; lia).
      replace (len data - 2 + 1) with (len data - 1) by lia.
      rewrite (decode_varint_loop_terminal _ _ _ _ _ Hlast)
        by (change (2 ^ (0 + 7 + 7)) with 16384; change (2 ^ (0 + 7)) with 128;
            change (2 ^ 0) with 1; lia).
      eexists _, _. split; [reflexivity |]. do 2 f_equal.
      rewrite !Z.shiftl_mul_pow2 by lia. change (2 ^ 0) with 1. lia.
    + rewrite (decode_varint_loop_terminal _ _ _ _ _ H2)
        by (change (2 ^ (0 + 7)) with 128; change (2 ^ 0) with 1; lia).
      eexists _, _. split; [reflexivity |]. do 2 f_equal.
      rewrite Z.shiftl_mul_pow2 by lia. change (2 ^ 0) with 1. lia.
  - rewrite (decode_varint_loop_terminal _ _ _ _ _ H1) by (change (2 ^ 0) with 1; lia).
    eexists _, _. split; [reflexivity |]. do 2 f_equal. lia.
Qed.

(** X6. On real bytes, 16 of them or more, the area the parser reports is
    the value [decode_varint] reads at position 14, provided the varint
    there ends within bytes 14 and 15 (one of them is below 128). *)
Theorem total_area_is_decode_varint (v : Value) (data : bytes) (byte14 byte15 : Z) :
  base64_b64decode b64decode v = inr data →
  is_bytes data →
  byte_at data 14 = Some byte14 → byte_at data 15 = Some byte15 →
  byte14 < 128 ∨ byte15 < 128 →
  ∃ stats a pos,
    parse_dps167_statistics b64decode v = inr stats ∧
    stats !! "total_area" = Some (Some a) ∧
    decode_varint data 14 = inr (a, pos).
Proof.
  intros Hdec Hb H14 H15 Hend. rewrite (parse_decoded _ _ _ Hdec).
  pose proof (is_bytes_byte_at _ _ _ Hb H14).
  pose proof (is_bytes_byte_at _ _ _ Hb H15).
  pose proof (byte_at_inv _ _ _ H15).
  pose proof (land_0x7F_range byte14).
  enough (∃ a pos, spec_total_area data = Some a ∧
                   decode_varint data 14 = inr (a, pos))
    as (a & pos & Ha & Hd).
  { eexists _, a, pos. split; [reflexivity |].
    rewrite total_area_lookup, Ha. auto. }
  unfold spec_total_area, decode_varint.
  destruct (Z.leb_spec 16 (len data)); [| lia].
  rewrite H14, H15. cbn [mbind option_bind].
  rewrite (bit7_byte byte14) by lia. case_bool_decide.
  - rewrite (decode_varint_loop_continue _ _ _ _ _ H14) by (change (2 ^ 0) with 1; lia).
    change (14 + 1) with 15.
    rewrite (decode_varint_loop_terminal _ _ _ _ _ H15)
      by (change (2 ^ (0 + 7)) with 128; change (2 ^ 0) with 1; lia).
    eexists _, _. split; [reflexivity |]. do 2 f_equal.
    rewrite Z.shiftl_mul_pow2 by lia. change (2 ^ 0) with 1. lia.
  - rewrite (decode_varint_loop_terminal _ _ _ _ _ H14) by (change (2 ^ 0) with 1; lia).
    eexists _, _. split; [reflexivity |]. do 2 f_equal. lia.
Qed.

End ParserOnBytes.

(** ** The stabilised counters *)

Lemma opt_max_idem (a s : option Z) : opt_max (opt_max a s) s = opt_max a s.
Proof. destruct a, s; cbn; try reflexivity; f_equal; lia. Qed.

Lemma opt_max_swap (a x y : option Z) :
  opt_max (opt_max a x) y = opt_max (opt_max a y) x.
Proof. destruct a, x, y; cbn; try reflexivity; f_equal; lia. Qed.

Lemma foldl_opt_max_perm (l l' : list (option Z)) :
  Permutation l l' → ∀ a, foldl opt_max a l = foldl opt_max a l'.
Proof.
  induction 1 as [| x l l' _ IH | x y l | l l' l'' _ IH1 _ IH2]; intros a; cbn.
  - reflexivity.
  - apply IH.
  - now rewrite opt_max_swap.
  - now rewrite IH1.
Qed.

(** A fold of [opt_max] ends on its start or on one of the samples. *)
Lemma foldl_opt_max_in (l : list (option Z)) :
  ∀ a, foldl opt_max a l = a ∨ foldl opt_max a l ∈ l.
Proof.
  induction l as [| s l IH]; intros a; cbn [foldl]; [now left |].
  destruct (IH (opt_max a s)) as [-> | Hin].
  - destruct a as [x |], s as [y |]; cbn; auto using list_elem_of_here.
    destruct (Z.max_spec x y) as [[_ ->] | [_ ->]]; auto using list_elem_of_here.
  - right. now apply list_elem_of_further.
Qed.

Lemma final_stored_update_all (last : option Z) (samples : list (option Z)) :
  final_stored last (update_all last samples) = foldl opt_max last samples.
Proof.
  unfold final_stored. rewrite last_lookup, update_all_length.
  destruct samples as [| s0 rest] eqn:Hs; [reflexivity |]. rewrite <- Hs.
  assert (Hlen : (0 < length samples)%nat) by (subst; cbn; lia).
  destruct (lookup_lt_is_Some_2 samples (pred (length samples))) as [s Hl]; [lia |].
  rewrite (update_all_lookup _ _ _ _ Hl).
  now rewrite take_ge by lia.
Qed.

Section StabilizerProperties.

Variable b64decode : string → exn + bytes.

(** X7. Reading a counter again on the same snapshot changes nothing: the
    second read returns the same value and leaves the stored value as the
    first read left it. *)
Theorem native_value_read_twice (m : metric) (data : snapshot)
    (last returned stored : option Z) :
  native_value b64decode m data last = inr (returned, stored) →
  native_value b64decode m data stored = inr (returned, stored).
Proof.
  rewrite !native_value_update, !update_opt_max. intros [= <- <-].
  now rewrite opt_max_idem.
Qed.

(** X8. The value a counter ends up storing does not depend on the order
    in which the snapshots were polled. *)
Theorem final_stored_order_independent (m : metric) (polls polls' : list snapshot)
    (last : option Z) :
  Permutation polls polls' →
  ∃ trace trace',
    poll_all (native_value b64decode m) polls last = inr trace ∧
    poll_all (native_value b64decode m) polls' last = inr trace' ∧
    final_stored last trace = final_stored last trace'.
Proof.
  intros Hperm. rewrite !poll_all_update_all. eexists _, _.
  split; [reflexivity |]. split; [reflexivity |].
  rewrite !final_stored_update_all. apply foldl_opt_max_perm.
  now apply fmap_Permutation.
Qed.

Lemma unavailable_no_sample (m : metric) (data : snapshot) :
  available m data = false → poll_sample b64decode (field m) data = None.
Proof.
  intros Hav. destruct data as [d |]; [| reflexivity].
  assert (Hd : d !! "167" = None).
  { destruct m; cbn in Hav; unfold dict_contains in Hav;
      apply bool_decide_eq_false_1 in Hav;
      destruct (d !! "167"); [exfalso; eauto | reflexivity | exfalso; eauto | reflexivity]. }
  unfold poll_sample. cbn. now rewrite Hd.
Qed.

(** X9. While a counter is unavailable (no snapshot, or one without DP
    167) it keeps returning the stored value and does not change it; so a
    poll that changes the stored value comes from an available sensor. *)
Theorem unavailable_counter_keeps_value (m : metric) (data : snapshot) (last : option Z) :
  (available m data = false →
   native_value b64decode m data last = inr (last, last)) ∧
  (∀ returned stored,
     native_value b64decode m data last = inr (returned, stored) →
     stored ≠ last → available m data = true).
Proof.
  assert (Hstale : available m data = false →
                   native_value b64decode m data last = inr (last, last)).
  { intros Hav. now rewrite native_value_update, (unavailable_no_sample _ _ Hav). }
  split; [exact Hstale |].
  intros returned stored Hnv Hne.
  destruct (available m data); [reflexivity |].
  rewrite Hstale in Hnv by reflexivity. congruence.
Qed.

(** X10. A counter never makes a value up: after any run of polls, what it
    returns is what it stores, and that is the value it started from or
    the sample of one of the snapshots polled so far. *)
Theorem counter_value_is_a_sample (m : metric) (polls : list snapshot)
    (last : option Z) (trace : list (option Z * option Z))
    (n : nat) (returned stored : option Z) :
  poll_all (native_value b64decode m) polls last = inr trace →
  trace !! n = Some (returned, stored) →
  returned = stored ∧
  (stored = last ∨
   ∃ data, data ∈ take (S n) polls ∧ poll_sample b64decode (field m) data = stored).
Proof.
  rewrite poll_all_update_all. intros [= <-] Hn.
  destruct (lookup_lt_is_Some_2 (poll_sample b64decode (field m) <$> polls) n)
    as [s Hs].
  { rewrite <- (update_all_length last). eapply lookup_lt_Some, Hn. }
  rewrite (update_all_lookup _ _ _ _ Hs) in Hn. injection Hn as <- <-.
  split; [reflexivity |].
  destruct (foldl_opt_max_in (take (S n) (poll_sample b64decode (field m) <$> polls)) last)
    as [Heq | Hin]; [left; exact Heq | right].
  rewrite <- fmap_take in Hin. apply list_elem_of_fmap in Hin as (data & Hd & Hin).
  exists data. split; [exact Hin |]. now rewrite <- fmap_take.
Qed.

End StabilizerProperties.

(** ** The battery sensor *)

Lemma dict_contains_lookup {A : Type} (d : gmap string A) (key : string) :
  dict_contains d key = true ↔ is_Some (d !! key).
Proof. unfold dict_contains. apply bool_decide_eq_true. Qed.

Section EntityProperties.

Variable int_of_text : string → option Z.
Variable decode_dps153_to_state : Value → exn + (RobovacState * string).
Variable SUBSTATUS_DESCRIPTIONS : gmap string string.
Variable icon_for_battery_level : option Z → bool → string.

Lemma battery_from_valid (d : gmap string Value) (key : string) :
  battery_from int_of_text d key = inr (valid_battery int_of_text (d !! key)).
Proof.
  unfold battery_from, dict_get, valid_battery.
  destruct (d !! key) as [v |]; [| reflexivity].
  cbn [default from_option id mbind option_bind].
  destruct v as [| b | n | s]; cbn [is_None]; [reflexivity | | |];
    unfold battery_try; cbn [py_int].
  - destruct b; reflexivity.
  - destruct (Z.leb_spec 0 n), (Z.leb_spec n 100); cbn [andb];
      case_bool_decide; (reflexivity || lia).
  - destruct (int_of_text s) as [n |]; [| reflexivity].
    destruct (Z.leb_spec 0 n), (Z.leb_spec n 100); cbn [andb];
      case_bool_decide; (reflexivity || lia).
Qed.

Lemma battery_native_value_valid (d : gmap string Value) :
  BatteryPercentageSensor_native_value int_of_text (Some d)
  = inr (match valid_battery int_of_text (d !! "8") with
         | Some battery => Some battery
         | None => valid_battery int_of_text (d !! "163")
         end).
Proof.
  unfold BatteryPercentageSensor_native_value, no_data.
  case_bool_decide as Hd.
  - subst d. now rewrite !lookup_empty.
  - rewrite !battery_from_valid.
    destruct (valid_battery int_of_text (d !! "8")); [reflexivity |].
    now destruct (valid_battery int_of_text (d !! "163")).
Qed.

Lemma valid_battery_inv (v : option Value) (b : Z) :
  valid_battery int_of_text v = Some b → 0 ≤ b ≤ 100 ∧ is_Some v.
Proof.
  unfold valid_battery. destruct v as [x |]; [| discriminate].
  cbn [mbind option_bind]. destruct (py_int int_of_text x) as [e | n]; [discriminate |].
  case_bool_decide; [| discriminate]. intros [= <-]. eauto.
Qed.

(** X11. A battery level the sensor reports is always from 0 to 100, and
    it is reported only by an available sensor. *)
Theorem battery_value_in_range (data : snapshot) (battery : Z) :
  BatteryPercentageSensor_native_value int_of_text data = inr (Some battery) →
  0 ≤ battery ≤ 100 ∧ BatteryPercentageSensor_available data = true.
Proof.
  destruct data as [d |]; [| discriminate].
  rewrite battery_native_value_valid. intros [= Hv].
  unfold BatteryPercentageSensor_available.
  destruct (valid_battery int_of_text (d !! "8")) as [b8 |] eqn:H8.
  - injection Hv as ->. apply valid_battery_inv in H8 as [Hr Hs].
    split; [exact Hr |]. apply orb_true_iff. left. now apply dict_contains_lookup.
  - apply valid_battery_inv in Hv as [Hr Hs].
    split; [exact Hr |]. apply orb_true_iff. right. now apply dict_contains_lookup.
Qed.

(** X12. The battery icon never fails, and two snapshots that agree on
    DPs 5, 8 and 163 get the same icon: no other DP plays a part. *)
Theorem battery_icon_frame (d d' : gmap string Value) :
  d !! "5" = d' !! "5" → d !! "8" = d' !! "8" → d !! "163" = d' !! "163" →
  (∃ icon, BatteryPercentageSensor_icon int_of_text icon_for_battery_level (Some d)
           = inr icon) ∧
  BatteryPercentageSensor_icon int_of_text icon_for_battery_level (Some d)
  = BatteryPercentageSensor_icon int_of_text icon_for_battery_level (Some d').
Proof.
  intros H5 H8 H163.
  assert (Hmode : ∀ e : gmap string Value,
            (if no_data (Some e) then VStr EmptyString
             else dict_get_default e "5" (VStr EmptyString))
            = dict_get_default e "5" (VStr EmptyString)).
  { intros e. unfold no_data. case_bool_decide as He; [| reflexivity].
    subst e. unfold dict_get_default. now rewrite lookup_empty. }
  unfold BatteryPercentageSensor_icon.
  rewrite !Hmode, !battery_native_value_valid. unfold dict_get_default.
  rewrite H5, H8, H163. split; [eexists |]; reflexivity.
Qed.

(** ** The running-status sensor *)

(** X13. An unavailable running-status sensor (no snapshot, or one with
    neither DP 153 nor DP 2) reports "Unknown" with the default icon, and
    does so without consulting the decoder. *)
Theorem unavailable_running_status_unknown (data : snapshot) :
  RunningStatusSensor_available data = false →
  RunningStatusSensor_native_value decode_dps153_to_state SUBSTATUS_DESCRIPTIONS data
  = inr "Unknown" ∧
  RunningStatusSensor_icon decode_dps153_to_state data = inr "mdi:robot-vacuum".
Proof.
  destruct data as [d |]; [| now split].
  unfold RunningStatusSensor_available. intros Hav.
  apply orb_false_iff in Hav as [H153 H2].
  unfold dict_contains in H153, H2.
  apply bool_decide_eq_false_1 in H153, H2.
  assert (E153 : d !! "153" = None) by (destruct (d !! "153"); [exfalso; eauto | reflexivity]).
  assert (E2 : d !! "2" = None) by (destruct (d !! "2"); [exfalso; eauto | reflexivity]).
  unfold RunningStatusSensor_native_value, RunningStatusSensor_icon,
    dict_get_default, dict_get.
  rewrite E153, E2. destruct (no_data (Some d)); split; reflexivity.
Qed.

(** X14. When DP 153 holds a usable value, DP 2 plays no part in the text
    or the icon; and when the decoder raises on it, both the text and the
    icon raise the same exception: the sensor does not absorb it. *)
Theorem running_status_prefers_dps153 (d : gmap string Value) (v : Value) :
  d !! "153" = Some v → truthy v = true →
  (∀ x,
     RunningStatusSensor_native_value decode_dps153_to_state SUBSTATUS_DESCRIPTIONS
       (Some (<["2" := x]> d))
     = RunningStatusSensor_native_value decode_dps153_to_state SUBSTATUS_DESCRIPTIONS
         (Some d) ∧
     RunningStatusSensor_icon decode_dps153_to_state (Some (<["2" := x]> d))
     = RunningStatusSensor_icon decode_dps153_to_state (Some d)) ∧
  (∀ e, decode_dps153_to_state v = inl e →
     RunningStatusSensor_native_value decode_dps153_to_state SUBSTATUS_DESCRIPTIONS
       (Some d) = inl e ∧
     RunningStatusSensor_icon decode_dps153_to_state (Some d) = inl e).
Proof.
  intros Hv Ht.
  assert (Hne : ∀ e : gmap string Value, e !! "153" = Some v → no_data (Some e) = false).
  { intros e He. unfold no_data. apply bool_decide_eq_false_2. intros ->.
    now rewrite lookup_empty in He. }
  split.
  - intros x.
    assert (Hv' : <["2" := x]> d !! "153" = Some v) by now rewrite lookup_insert_ne.
    unfold RunningStatusSensor_native_value, RunningStatusSensor_icon, dict_get_default.
    rewrite (Hne _ Hv), (Hne _ Hv'), Hv, Hv'. cbn [default from_option id].
    now rewrite Ht.
  - intros e He.
    unfold RunningStatusSensor_native_value, RunningStatusSensor_icon, dict_get_default.
    rewrite (Hne _ Hv), Hv. cbn [default from_option id]. now rewrite Ht, He.
Qed.

(** X15. Without a usable DP 153 the text comes from DP 2 alone, and only
    the booleans count: "Running" exactly for [True], "Stopped" exactly
    for [False], "Unknown" otherwise (also for the integers 1 and 0); the
    icon is the default one. *)
Theorem running_status_falls_back_to_dps2 (d : gmap string Value) :
  truthy (dict_get_default d "153" (VStr EmptyString)) = false →
  RunningStatusSensor_native_value decode_dps153_to_state SUBSTATUS_DESCRIPTIONS (Some d)
  = inr (match d !! "2" with
         | Some (VBool true) => "Running"
         | Some (VBool false) => "Stopped"
         | _ => "Unknown"
         end) ∧
  RunningStatusSensor_icon decode_dps153_to_state (Some d) = inr "mdi:robot-vacuum".
Proof.
  intros Hf. unfold RunningStatusSensor_native_value, RunningStatusSensor_icon.
  rewrite Hf. unfold no_data, dict_get. case_bool_decide as Hd.
  - subst d. now rewrite lookup_empty.
  - split; [| reflexivity].
    destruct (d !! "2") as [[| [|] | n | s] |]; reflexivity.
Qed.

(** ** The generic DP sensor *)

(** X16. The generic sensor never raises, whatever its converter does:
    when the converter fails on the stored value, that value is returned
    as it is.  Without a converter an available sensor returns the stored
    value. *)
Theorem base_sensor_absorbs_converter_errors
    (parse_value : option (Value → exn + Value)) (dps_id : string) (data : snapshot) :
  (∃ value, BaseDPSensorEntity_native_value parse_value dps_id data = inr value) ∧
  (∀ d converter e,
     data = Some d → d ≠ ∅ → parse_value = Some converter →
     converter (dict_get d dps_id) = inl e →
     BaseDPSensorEntity_native_value parse_value dps_id data
     = inr (dict_get d dps_id)) ∧
  (∀ d v,
     data = Some d → parse_value = None →
     BaseDPSensorEntity_available dps_id data = true → d !! dps_id = Some v →
     BaseDPSensorEntity_native_value parse_value dps_id data = inr v).
Proof.
  split; [| split].
  - unfold BaseDPSensorEntity_native_value.
    destruct data as [d |]; [| eauto].
    destruct (no_data (Some d)); [eauto |].
    destruct parse_value as [converter |]; [| eauto].
    destruct (converter (dict_get d dps_id)) as [e |]; [destruct e |]; eauto.
  - intros d converter e -> Hne -> He. unfold BaseDPSensorEntity_native_value, no_data.
    rewrite bool_decide_eq_false_2 by exact Hne. rewrite He. now destruct e.
  - intros d v -> -> _ Hv. unfold BaseDPSensorEntity_native_value, no_data.
    rewrite bool_decide_eq_false_2.
    + unfold dict_get. now rewrite Hv.
    + intros ->. now rewrite lookup_empty in Hv.
Qed.

End EntityProperties.

(** ** Setting up the sensors *)

Section SetupProperties.

Variable Coordinator : Type.
Variable DOMAIN CONF_DISCOVERED_DEVICES CONF_COORDINATOR : string.

Lemma setup_devices_ok (items : list (string * gmap string Coordinator)) :
  Forall (λ item, is_Some (item.2 !! CONF_COORDINATOR)) items →
  ∃ devices,
    setup_devices Coordinator CONF_COORDINATOR items = inr devices ∧
    length devices = (4 * length items)%nat ∧
    ∀ i device_id props coordinator,
      items !! i = Some (device_id, props) →
      props !! CONF_COORDINATOR = Some coordinator →
      devices !! (4 * i)%nat = Some (BatteryPercentageSensor coordinator) ∧
      devices !! (4 * i + 1)%nat = Some (RunningStatusSensor coordinator) ∧
      devices !! (4 * i + 2)%nat = Some (TotalCleaningCountSensor coordinator None) ∧
      devices !! (4 * i + 3)%nat = Some (TotalCleaningAreaSensor coordinator None).
Proof.
  induction 1 as [| [id props] items [c Hc] _ (devices & Hrec & Hlen & Hat)];
    cbn [setup_devices].
  - exists []. split; [reflexivity |]. split; [reflexivity |].
    intros i ? ? ? Hi. discriminate.
  - cbn in Hc. rewrite Hc, Hrec. eexists. split; [reflexivity |].
    split; [cbn [length]; lia |].
    intros i device_id props' coordinator Hi Hp. destruct i as [| i].
    + injection Hi as <- <-. rewrite Hc in Hp. injection Hp as <-. auto.
    + cbn in Hi. destruct (Hat _ _ _ _ Hi Hp) as (H0 & H1 & H2 & H3).
      replace (4 * S i)%nat with (S (S (S (S (4 * i))))) by lia.
      cbn. auto.
Qed.

Lemma setup_devices_fail (items : list (string * gmap string Coordinator)) :
  Exists (λ item, item.2 !! CONF_COORDINATOR = None) items →
  setup_devices Coordinator CONF_COORDINATOR items = inl KeyError.
Proof.
  induction 1 as [[id props] items Hnone | [id props] items _ IH];
    cbn [setup_devices].
  - cbn in Hnone. now rewrite Hnone.
  - rewrite IH. now destruct (props !! CONF_COORDINATOR).
Qed.

(** X17. Setting up the platform is all or nothing.  When every
    discovered device has its coordinator, the entities handed over are
    four per device, in the order battery, running status, count, area,
    all on that device's coordinator and the counters with nothing
    stored; with no device, nothing is handed over; and when one device
    lacks its coordinator, [KeyError] is raised and no entity of any
    device is added. *)
Theorem sensor_setup_all_or_nothing
    (hass_data : gmap string (gmap string (gmap string (list (string * gmap string Coordinator)))))
    (entry_id : string) (domain_data : gmap string (gmap string (list (string * gmap string Coordinator))))
    (entry_data : gmap string (list (string * gmap string Coordinator)))
    (discovered_devices : list (string * gmap string Coordinator)) :
  hass_data !! DOMAIN = Some domain_data →
  domain_data !! entry_id = Some entry_data →
  entry_data !! CONF_DISCOVERED_DEVICES = Some discovered_devices →
  (Forall (λ item, is_Some (item.2 !! CONF_COORDINATOR)) discovered_devices →
   discovered_devices ≠ [] →
   ∃ devices,
     sensor_async_setup_entry Coordinator DOMAIN CONF_DISCOVERED_DEVICES
       CONF_COORDINATOR hass_data entry_id = inr (Some devices) ∧
     length devices = (4 * length discovered_devices)%nat ∧
     ∀ i device_id props coordinator,
       discovered_devices !! i = Some (device_id, props) →
       props !! CONF_COORDINATOR = Some coordinator →
       devices !! (4 * i)%nat = Some (BatteryPercentageSensor coordinator) ∧
       devices !! (4 * i + 1)%nat = Some (RunningStatusSensor coordinator) ∧
       devices !! (4 * i + 2)%nat = Some (TotalCleaningCountSensor coordinator None) ∧
       devices !! (4 * i + 3)%nat = Some (TotalCleaningAreaSensor coordinator None)) ∧
  (discovered_devices = [] →
   sensor_async_setup_entry Coordinator DOMAIN CONF_DISCOVERED_DEVICES
     CONF_COORDINATOR hass_data entry_id = inr None) ∧
  (Exists (λ item, item.2 !! CONF_COORDINATOR = None) discovered_devices →
   sensor_async_setup_entry Coordinator DOMAIN CONF_DISCOVERED_DEVICES
     CONF_COORDINATOR hass_data entry_id = inl KeyError).
Proof.
  intros Hd He Hdd. unfold sensor_async_setup_entry. rewrite Hd, He, Hdd.
  split; [| split].
  - intros Hall Hne.
    destruct (setup_devices_ok _ Hall) as (devices & -> & Hlen & Hat).
    exists devices. split; [| split; assumption].
    destruct devices as [| e devices]; [| reflexivity].
    destruct discovered_devices; [congruence | cbn in Hlen; lia].
  - intros ->. reflexivity.
  - intros Hex. now rewrite (setup_devices_fail _ Hex).
Qed.

End SetupProperties.

(** ** The configuration flow *)

Section ConfigFlowProperties.

Variable strip : string → string.
Variable CONF_EMAIL CONF_PASSWORD CONF_MANUAL_DEVICES : string.

(** One more device at the end of [self._devices]. *)
Lemma collect_manual_devices_snoc (devices : list flow_device) (device : flow_device)
    (user_input : gmap string string) :
  collect_manual_devices strip (devices ++ [device]) user_input
  = match user_input !! ip_key device with
    | Some text =>
        if negb (String.eqb (strip text) EmptyString) then
          <[dev_device_id device :=
              {| md_ip := strip text;
                 md_name := dev_name device;
                 md_local_key := dev_local_key device;
                 md_home_id := dev_home_id device |}]>
            (collect_manual_devices strip devices user_input)
        else collect_manual_devices strip devices user_input
    | None => collect_manual_devices strip devices user_input
    end.
Proof. unfold collect_manual_devices. now rewrite foldl_app. Qed.

Lemma collect_manual_devices_sound (devices : list flow_device)
    (user_input : gmap string string) (device_id : string) (md : manual_device) :
  collect_manual_devices strip devices user_input !! device_id = Some md →
  ∃ device text,
    device ∈ devices ∧ dev_device_id device = device_id ∧
    user_input !! ip_key device = Some text ∧
    strip text ≠ EmptyString ∧
    md = {| md_ip := strip text; md_name := dev_name device;
            md_local_key := dev_local_key device; md_home_id := dev_home_id device |}.
Proof.
  induction devices as [| device devices IH] using rev_ind.
  - unfold collect_manual_devices. cbn. now rewrite lookup_empty.
  - rewrite collect_manual_devices_snoc.
    assert (Hold : collect_manual_devices strip devices user_input !! device_id = Some md →
                   ∃ device0 text, device0 ∈ devices ++ [device] ∧
                     dev_device_id device0 = device_id ∧
                     user_input !! ip_key device0 = Some text ∧
                     strip text ≠ EmptyString ∧
                     md = {| md_ip := strip text; md_name := dev_name device0;
                             md_local_key := dev_local_key device0;
                             md_home_id := dev_home_id device0 |}).
    { intros H. destruct (IH H) as (d0 & text & Hin & Hrest).
      exists d0, text. split; [apply elem_of_app; now left | exact Hrest]. }
    destruct (user_input !! ip_key device) as [text |] eqn:Hui; [| exact Hold].
    destruct (String.eqb_spec (strip text) EmptyString) as [Heq | Hne];
      cbn [negb]; [exact Hold |].
    rewrite lookup_insert. case_decide as Hid; [| exact Hold].
    intros [= <-]. exists device, text.
    split; [apply elem_of_app; right; apply list_elem_of_here |]. auto.
Qed.

Lemma collect_manual_devices_complete (devices : list flow_device)
    (user_input : gmap string string) (device : flow_device) (text : string) :
  device ∈ devices →
  user_input !! ip_key device = Some text → strip text ≠ EmptyString →
  ∃ md, collect_manual_devices strip devices user_input !! dev_device_id device = Some md ∧
        md_ip md = strip text.
Proof.
  intros Hin Hui Hne. induction devices as [| last devices IH] using rev_ind.
  - now apply elem_of_nil in Hin.
  - rewrite collect_manual_devices_snoc.
    destruct (decide (dev_device_id last = dev_device_id device)) as [Hid | Hid].
    + assert (Hkey : ip_key last = ip_key device) by (unfold ip_key; now rewrite Hid).
      rewrite Hkey, Hui.
      destruct (String.eqb_spec (strip text) EmptyString); [contradiction |].
      cbn [negb]. rewrite Hid, lookup_insert_eq. eauto.
    + assert (Hin' : device ∈ devices).
      { apply elem_of_app in Hin as [H | H]; [exact H |].
        apply list_elem_of_singleton in H. congruence. }
      destruct (IH Hin') as (md & Hmd & Hip).
      exists md. split; [| exact Hip].
      destruct (user_input !! ip_key last) as [t |]; [| exact Hmd].
      destruct (negb (String.eqb (strip t) EmptyString)); [| exact Hmd].
      now rewrite lookup_insert_ne.
Qed.

Lemma credentials_no_table (_username _password : option string) (key : string)
    (table : gmap string manual_device) :
  credentials CONF_EMAIL CONF_PASSWORD _username _password !! key
  ≠ Some (EManualDevices table).
Proof.
  unfold credentials. rewrite !lookup_insert, lookup_empty.
  repeat case_decide; discriminate.
Qed.

(** X18. Submitting the IP form always creates the entry, titled with the
    user name.  Its manual-devices table, when it has one, is not empty,
    and each row belongs to a listed device whose field was filled in: the
    row holds that text stripped, which is not empty, with the device's
    name, key and home.  Conversely every listed device whose field is
    not blank gets a row with its stripped text. *)
Theorem device_list_submit_table (_devices : list flow_device)
    (_username _password : option string) (user_input : gmap string string) :
  ∃ data,
    async_step_device_list strip CONF_EMAIL CONF_PASSWORD CONF_MANUAL_DEVICES
      _devices _username _password (Some user_input)
    = CreateEntry _username data ∧
    (∀ table,
       data !! CONF_MANUAL_DEVICES = Some (EManualDevices table) →
       table ≠ ∅ ∧
       ∀ device_id md,
         table !! device_id = Some md →
         ∃ device text,
           device ∈ _devices ∧ dev_device_id device = device_id ∧
           user_input !! ip_key device = Some text ∧
           strip text ≠ EmptyString ∧
           md = {| md_ip := strip text; md_name := dev_name device;
                   md_local_key := dev_local_key device;
                   md_home_id := dev_home_id device |}) ∧
    (∀ device text,
       device ∈ _devices →
       user_input !! ip_key device = Some text → strip text ≠ EmptyString →
       ∃ table md,
         data !! CONF_MANUAL_DEVICES = Some (EManualDevices table) ∧
         table !! dev_device_id device = Some md ∧ md_ip md = strip text).
Proof.
  unfold async_step_device_list. eexists. split; [reflexivity |].
  case_bool_decide as Hempty.
  - split.
    + intros table Ht. now apply credentials_no_table in Ht.
    + intros device text Hin Hui Hne.
      destruct (collect_manual_devices_complete _ _ _ _ Hin Hui Hne) as (md & Hmd & _).
      rewrite Hempty, lookup_empty in Hmd. discriminate.
  - split.
    + intros table Ht. rewrite lookup_insert_eq in Ht. injection Ht as <-.
      split; [exact Hempty |]. intros device_id md.
      apply collect_manual_devices_sound.
    + intros device text Hin Hui Hne.
      destruct (collect_manual_devices_complete _ _ _ _ Hin Hui Hne) as (md & Hmd & Hip).
      eexists _, md. rewrite lookup_insert_eq. auto.
Qed.

(** X19. Leaving every field blank (or out) has the effect of declining
    manual configuration: both create the entry with the two credentials
    and nothing else, so no empty manual-devices table is ever stored. *)
Theorem blank_submit_is_declining (_devices : list flow_device)
    (_username _password : option string) (user_input : gmap string string)
    (answer : gmap string Value) :
  (∀ device text,
     device ∈ _devices → user_input !! ip_key device = Some text →
     strip text = EmptyString) →
  truthy (dict_get_default answer "add_manual_devices" (VBool false)) = false →
  async_step_device_list strip CONF_EMAIL CONF_PASSWORD CONF_MANUAL_DEVICES
    _devices _username _password (Some user_input)
  = CreateEntry _username (credentials CONF_EMAIL CONF_PASSWORD _username _password) ∧
  async_step_manual_config strip CONF_EMAIL CONF_PASSWORD CONF_MANUAL_DEVICES
    _devices _username _password (Some answer)
  = CreateEntry _username (credentials CONF_EMAIL CONF_PASSWORD _username _password).
Proof.
  intros Hblank Hno. split.
  - unfold async_step_device_list.
    rewrite bool_decide_eq_true_2; [reflexivity |].
    apply map_eq. intros device_id. rewrite lookup_empty.
    destruct (collect_manual_devices strip _devices user_input !! device_id)
      as [md |] eqn:Hmd; [| reflexivity].
    apply collect_manual_devices_sound in Hmd
      as (device & text & Hin & _ & Hui & Hne & _).
    now rewrite (Hblank _ _ Hin Hui) in Hne.
  - unfold async_step_manual_config. now rewrite Hno.
Qed.

Lemma schema_keys_spec (devices : list flow_device) :
  NoDup (foldl (λ schema_dict device, schema_add schema_dict (ip_key device)) [] devices) ∧
  ∀ key,
    key ∈ foldl (λ schema_dict device, schema_add schema_dict (ip_key device)) [] devices
    ↔ ∃ device, device ∈ devices ∧ key = ip_key device.
Proof.
  induction devices as [| last devices [IHnd IHin]] using rev_ind.
  - split; [constructor |]. intros key. cbn. split.
    + intros H. now apply elem_of_nil in H.
    + intros (device & H & _). now apply elem_of_nil in H.
  - rewrite foldl_app. cbn [foldl]. unfold schema_add at 1 3.
    case_bool_decide as Hthere.
    + split; [exact IHnd |]. intros key. rewrite IHin. split.
      * intros (device & Hin & ->). exists device. split; [| reflexivity].
        apply elem_of_app. now left.
      * intros (device & Hin & ->). apply elem_of_app in Hin as [Hin | Hin]; [eauto |].
        apply list_elem_of_singleton in Hin as ->. now apply IHin.
    + split.
      * apply NoDup_app. split; [exact IHnd |]. split; [| apply NoDup_singleton].
        intros key Hk Hk'. apply list_elem_of_singleton in Hk' as ->. contradiction.
      * intros key. rewrite elem_of_app, IHin, list_elem_of_singleton. split.
        -- intros [(device & Hin & ->) | ->].
           ++ exists device. split; [apply elem_of_app; now left | reflexivity].
           ++ exists last. split; [apply elem_of_app; right; apply list_elem_of_here | reflexivity].
        -- intros (device & Hin & ->). apply elem_of_app in Hin as [Hin | Hin]; [eauto |].
           apply list_elem_of_singleton in Hin as ->. now right.
Qed.

Lemma collect_manual_devices_ext (devices : list flow_device)
    (user_input user_input' : gmap string string) :
  (∀ device, device ∈ devices → user_input !! ip_key device = user_input' !! ip_key device) →
  collect_manual_devices strip devices user_input
  = collect_manual_devices strip devices user_input'.
Proof.
  induction devices as [| last devices IH] using rev_ind; intros Hagree; [reflexivity |].
  rewrite !collect_manual_devices_snoc.
  rewrite <- (Hagree last) by (apply elem_of_app; right; apply list_elem_of_here).
  rewrite IH; [reflexivity |].
  intros device Hin. apply Hagree, elem_of_app. now left.
Qed.

(** X20. The IP form and its submission agree.  Accepting manual
    configuration shows the form [device_list], whose fields are exactly
    the keys [device_ip_<id>] of the listed devices, each once; and the
    submission reads no other key: two inputs that agree on these fields
    create the same entry. *)
Theorem device_list_form_matches_submit (_devices : list flow_device)
    (_username _password : option string) (answer : gmap string Value) :
  truthy (dict_get_default answer "add_manual_devices" (VBool false)) = true →
  ∃ schema_keys,
    async_step_manual_config strip CONF_EMAIL CONF_PASSWORD CONF_MANUAL_DEVICES
      _devices _username _password (Some answer)
    = ShowForm "device_list" schema_keys (device_info _devices) ∧
    NoDup schema_keys ∧
    (∀ key, key ∈ schema_keys ↔ ∃ device, device ∈ _devices ∧ key = ip_key device) ∧
    (∀ user_input user_input' : gmap string string,
       (∀ key, key ∈ schema_keys → user_input !! key = user_input' !! key) →
       async_step_device_list strip CONF_EMAIL CONF_PASSWORD CONF_MANUAL_DEVICES
         _devices _username _password (Some user_input)
       = async_step_device_list strip CONF_EMAIL CONF_PASSWORD CONF_MANUAL_DEVICES
           _devices _username _password (Some user_input')).
Proof.
  intros Hyes. unfold async_step_manual_config. rewrite Hyes. cbn [negb].
  destruct (schema_keys_spec _devices) as [Hnd Hkeys].
  eexists. split; [reflexivity |]. split; [exact Hnd |]. split; [exact Hkeys |].
  intros user_input user_input' Hagree. unfold async_step_device_list.
  rewrite (collect_manual_devices_ext _devices user_input user_input'); [reflexivity |].
  intros device Hin. apply Hagree, Hkeys. eauto.
Qed.

End ConfigFlowProperties.

(** ** The further properties at concrete inputs *)

Lemma decode_varint_encoded_anywhere_witness :
  decode_varint ([0x18] ++ encode_varint 300 ++ [0xFF]) (len [0x18])
  = inr (300, len [0x18] + len (encode_varint 300)).
Proof. apply (decode_varint_encoded_anywhere 300 [0x18] [0xFF]). lia. Defined.

Lemma decode_varint_after_prefix_witness :
  decode_varint ([0x18; 0x07] ++ [0xAC; 0x02]) (len [0x18; 0x07] + 0)
  = match decode_varint [0xAC; 0x02] 0 with
    | inr (value, pos) => inr (value, len [0x18; 0x07] + pos)
    | inl e => inl e
    end.
Proof. apply (decode_varint_after_prefix [0x18; 0x07] [0xAC; 0x02] 0). lia. Defined.

Lemma decode_varint_value_bound_witness :
  0 ≤ 2 ∧ 0 ≤ 300 < 2 ^ (7 * (2 - 0)).
Proof. apply (decode_varint_value_bound [0xAC; 0x02] 0 300 2). reflexivity. Defined.

Lemma parse_values_bounded_witness :
  ∃ stats,
    parse_dps167_statistics b64decode_ref (VStr "Cg4AAAAAAAAAAAAAAACUARgH") = inr stats ∧
    (∀ c, stats !! "total_count" = Some (Some c) → 0 ≤ c < 2 ^ 22) ∧
    (∀ a, stats !! "total_area" = Some (Some a) → 0 ≤ a < 2 ^ 15).
Proof.
  apply (parse_values_bounded b64decode_ref (VStr "Cg4AAAAAAAAAAAAAAACUARgH")
           [10; 14; 0; 0; 0; 0; 0; 0; 0; 0; 0; 0; 0; 0; 148; 1; 24; 7]).
  - reflexivity.
  - unfold is_bytes. repeat constructor; lia.
Defined.

Lemma total_count_is_decode_varint_witness :
  ∃ stats c pos,
    parse_dps167_statistics b64decode_ref (VStr "GJQB") = inr stats ∧
    stats !! "total_count" = Some (Some c) ∧
    decode_varint [0x18; 0x94; 0x01] (0 + 1) = inr (c, pos).
Proof.
  apply (total_count_is_decode_varint b64decode_ref (VStr "GJQB")
           [0x18; 0x94; 0x01] 0 1).
  - reflexivity.
  - unfold is_bytes. repeat constructor; lia.
  - reflexivity.
  - reflexivity.
  - lia.
Defined.

Lemma total_area_is_decode_varint_witness :
  ∃ stats a pos,
    parse_dps167_statistics b64decode_ref (VStr "Cg4AAAAAAAAAAAAAAACUARgH") = inr stats ∧
    stats !! "total_area" = Some (Some a) ∧
    decode_varint [10; 14; 0; 0; 0; 0; 0; 0; 0; 0; 0; 0; 0; 0; 148; 1; 24; 7] 14
    = inr (a, pos).
Proof.
  apply (total_area_is_decode_varint b64decode_ref (VStr "Cg4AAAAAAAAAAAAAAACUARgH")
           [10; 14; 0; 0; 0; 0; 0; 0; 0; 0; 0; 0; 0; 0; 148; 1; 24; 7] 148 1).
  - reflexivity.
  - unfold is_bytes. repeat constructor; lia.
  - reflexivity.
  - reflexivity.
  - right. lia.
Defined.

Lemma native_value_read_twice_witness :
  native_value b64decode_ref Count (snapshot_167 "GAk=") (Some 9) = inr (Some 9, Some 9).
Proof.
  apply (native_value_read_twice b64decode_ref Count (snapshot_167 "GAk=") (Some 5)).
  reflexivity.
Defined.

Lemma final_stored_order_independent_witness :
  ∃ trace trace',
    poll_all (native_value b64decode_ref Count)
      [snapshot_167 "GAk="; snapshot_167 "GAU="] None = inr trace ∧
    poll_all (native_value b64decode_ref Count)
      [snapshot_167 "GAU="; snapshot_167 "GAk="] None = inr trace' ∧
    final_stored None trace = final_stored None trace'.
Proof.
  apply (final_stored_order_independent b64decode_ref Count).
  apply perm_swap.
Defined.

Lemma unavailable_counter_keeps_value_witness :
  native_value b64decode_ref Area (Some {["8" := VInt 50]}) (Some 50)
  = inr (Some 50, Some 50) ∧
  available Count (snapshot_167 "GAk=") = true.
Proof.
  split.
  - apply (unavailable_counter_keeps_value b64decode_ref Area). reflexivity.
  - apply (proj2 (unavailable_counter_keeps_value b64decode_ref Count
                    (snapshot_167 "GAk=") (Some 5)) (Some 9) (Some 9)).
    + reflexivity.
    + discriminate.
Defined.

Lemma counter_value_is_a_sample_witness :
  Some 9 = Some 9 ∧
  (Some 9 = None ∨
   ∃ data, data ∈ take 2 [snapshot_167 "GAk="; snapshot_167 "GAM="] ∧
           poll_sample b64decode_ref (field Count) data = Some 9).
Proof.
  apply (counter_value_is_a_sample b64decode_ref Count
           [snapshot_167 "GAk="; snapshot_167 "GAM="] None
           [(Some 9, Some 9); (Some 9, Some 9)] 1 (Some 9) (Some 9));
    reflexivity.
Defined.

Lemma battery_value_in_range_witness :
  0 ≤ 87 ≤ 100 ∧
  BatteryPercentageSensor_available (Some {["8" := VInt 250; "163" := VStr "87"]}) = true.
Proof.
  apply (battery_value_in_range int_of_text_ref
           (Some {["8" := VInt 250; "163" := VStr "87"]}) 87).
  reflexivity.
Defined.

Lemma battery_icon_frame_witness :
  (∃ icon,
     BatteryPercentageSensor_icon int_of_text_ref
       (λ level charging, if charging then "mdi:battery-charging" else "mdi:battery")
       (Some {["5" := VStr "docked"; "8" := VInt 40]}) = inr icon) ∧
  BatteryPercentageSensor_icon int_of_text_ref
    (λ level charging, if charging then "mdi:battery-charging" else "mdi:battery")
    (Some {["5" := VStr "docked"; "8" := VInt 40]})
  = BatteryPercentageSensor_icon int_of_text_ref
      (λ level charging, if charging then "mdi:battery-charging" else "mdi:battery")
      (Some {["5" := VStr "docked"; "8" := VInt 40; "2" := VBool true]}).
Proof.
  apply (battery_icon_frame int_of_text_ref
           (λ level charging, if charging then "mdi:battery-charging" else "mdi:battery")
           {["5" := VStr "docked"; "8" := VInt 40]}
           {["5" := VStr "docked"; "8" := VInt 40; "2" := VBool true]});
    reflexivity.
Defined.

Lemma unavailable_running_status_unknown_witness :
  RunningStatusSensor_native_value (λ _, inl ValueError) ∅ (Some {["8" := VInt 40]})
  = inr "Unknown" ∧
  RunningStatusSensor_icon (λ _, inl ValueError) (Some {["8" := VInt 40]})
  = inr "mdi:robot-vacuum".
Proof.
  apply (unavailable_running_status_unknown (λ _, inl ValueError) ∅
           (Some {["8" := VInt 40]})).
  reflexivity.
Defined.

Lemma running_status_prefers_dps153_witness :
  (RunningStatusSensor_native_value (λ _, inr (DOCKED, "charging"))
     {["charging" := "Charging"]}
     (Some (<["2" := VBool true]> {["153" := VStr "EAo="]}))
   = RunningStatusSensor_native_value (λ _, inr (DOCKED, "charging"))
       {["charging" := "Charging"]} (Some {["153" := VStr "EAo="]}) ∧
   RunningStatusSensor_icon (λ _, inr (DOCKED, "charging"))
     (Some (<["2" := VBool true]> {["153" := VStr "EAo="]}))
   = RunningStatusSensor_icon (λ _, inr (DOCKED, "charging"))
       (Some {["153" := VStr "EAo="]})) ∧
  (RunningStatusSensor_native_value (λ _, inl ValueError) ∅
     (Some {["153" := VStr "EAo="]}) = inl ValueError ∧
   RunningStatusSensor_icon (λ _, inl ValueError) (Some {["153" := VStr "EAo="]})
   = inl ValueError).
Proof.
  split.
  - destruct (running_status_prefers_dps153 (λ _, inr (DOCKED, "charging"))
                {["charging" := "Charging"]} {["153" := VStr "EAo="]} (VStr "EAo="))
      as [Hany _]; [reflexivity | reflexivity |].
    apply (Hany (VBool true)).
  - destruct (running_status_prefers_dps153 (λ _, inl ValueError) ∅
                {["153" := VStr "EAo="]} (VStr "EAo="))
      as [_ Hraise]; [reflexivity | reflexivity |].
    apply (Hraise ValueError). reflexivity.
Defined.

Lemma running_status_falls_back_to_dps2_witness :
  RunningStatusSensor_native_value (λ _, inl ValueError) ∅ (Some {["2" := VInt 1]})
  = inr "Unknown" ∧
  RunningStatusSensor_icon (λ _, inl ValueError) (Some {["2" := VInt 1]})
  = inr "mdi:robot-vacuum".
Proof.
  destruct (running_status_falls_back_to_dps2 (λ _, inl ValueError) ∅ {["2" := VInt 1]})
    as [Htext Hicon]; [reflexivity |].
  split; [rewrite Htext; reflexivity | exact Hicon].
Defined.

Lemma base_sensor_absorbs_converter_errors_witness :
  BaseDPSensorEntity_native_value (Some (λ _, inl TypeError)) "8" (Some {["8" := VInt 40]})
  = inr (dict_get {["8" := VInt 40]} "8") ∧
  BaseDPSensorEntity_native_value None "8" (Some {["8" := VInt 40]}) = inr (VInt 40).
Proof.
  split.
  - apply (proj1 (proj2 (base_sensor_absorbs_converter_errors
                           (Some (λ _, inl TypeError)) "8" (Some {["8" := VInt 40]})))
             {["8" := VInt 40]} (λ _, inl TypeError) TypeError);
      try reflexivity.
    intros H. apply (f_equal (λ m : gmap string Value, m !! "8")) in H. discriminate.
  - apply (proj2 (proj2 (base_sensor_absorbs_converter_errors
                           None "8" (Some {["8" := VInt 40]})))
             {["8" := VInt 40]} (VInt 40)); reflexivity.
Defined.

Lemma sensor_setup_all_or_nothing_witness :
  (∃ devices : list (Entity nat),
     sensor_async_setup_entry nat "eufy" "devices" "coordinator"
       {["eufy" := {["entry1" := {["devices" := [("dev1", {["coordinator" := 7%nat]})]]}]}]}
       "entry1" = inr (Some devices) ∧
     length devices = 4%nat) ∧
  sensor_async_setup_entry nat "eufy" "devices" "coordinator"
    {["eufy" := {["entry1" := {["devices" :=
        [("dev1", {["coordinator" := 7%nat]}); ("dev2", ∅)]]}]}]}
    "entry1" = inl KeyError.
Proof.
  split.
  - destruct (sensor_setup_all_or_nothing nat "eufy" "devices" "coordinator"
                {["eufy" := {["entry1" :=
                    {["devices" := [("dev1", {["coordinator" := 7%nat]})]]}]}]}
                "entry1"
                {["entry1" := {["devices" := [("dev1", {["coordinator" := 7%nat]})]]}]}
                {["devices" := [("dev1", {["coordinator" := 7%nat]})]]}
                [("dev1", {["coordinator" := 7%nat]})])
      as (Hall & _ & _); [reflexivity | reflexivity | reflexivity |].
    destruct Hall as (devices & Hrun & Hlen & _).
    + repeat constructor. exists 7%nat. reflexivity.
    + discriminate.
    + exists devices. split; [exact Hrun | exact Hlen].
  - destruct (sensor_setup_all_or_nothing nat "eufy" "devices" "coordinator"
                {["eufy" := {["entry1" := {["devices" :=
                    [("dev1", {["coordinator" := 7%nat]}); ("dev2", ∅)]]}]}]}
                "entry1"
                {["entry1" := {["devices" :=
                    [("dev1", {["coordinator" := 7%nat]}); ("dev2", ∅)]]}]}
                {["devices" := [("dev1", {["coordinator" := 7%nat]}); ("dev2", ∅)]]}
                [("dev1", {["coordinator" := 7%nat]}); ("dev2", ∅)])
      as (_ & _ & Hfail); [reflexivity | reflexivity | reflexivity |].
    apply Hfail. apply Exists_cons_tl, Exists_cons_hd. reflexivity.
Defined.

Lemma device_list_submit_table_witness :
  ∃ data,
    async_step_device_list strip_ref "email" "password" "manual_devices"
      [{| dev_name := "S1"; dev_device_id := "abc"; dev_local_key := "k";
          dev_home_id := "h" |}]
      (Some "user") (Some "secret")
      (Some {["device_ip_abc" := " 192.168.1.20 "]})
    = CreateEntry (Some "user") data ∧
    ∃ table md,
      data !! "manual_devices" = Some (EManualDevices table) ∧
      table !! "abc" = Some md ∧ md_ip md = "192.168.1.20".
Proof.
  destruct (device_list_submit_table strip_ref "email" "password" "manual_devices"
              [{| dev_name := "S1"; dev_device_id := "abc"; dev_local_key := "k";
                  dev_home_id := "h" |}]
              (Some "user") (Some "secret")
              {["device_ip_abc" := " 192.168.1.20 "]})
    as (data & Hrun & _ & Hrow).
  exists data. split; [exact Hrun |].
  apply (Hrow {| dev_name := "S1"; dev_device_id := "abc"; dev_local_key := "k";
                 dev_home_id := "h" |} " 192.168.1.20 ").
  - apply list_elem_of_here.
  - reflexivity.
  - discriminate.
Defined.

Lemma blank_submit_is_declining_witness :
  async_step_device_list strip_ref "email" "password" "manual_devices"
    [{| dev_name := "S1"; dev_device_id := "abc"; dev_local_key := "k";
        dev_home_id := "h" |}]
    (Some "user") (Some "secret") (Some {["device_ip_abc" := "  "]})
  = CreateEntry (Some "user") (credentials "email" "password" (Some "user") (Some "secret")) ∧
  async_step_manual_config strip_ref "email" "password" "manual_devices"
    [{| dev_name := "S1"; dev_device_id := "abc"; dev_local_key := "k";
        dev_home_id := "h" |}]
    (Some "user") (Some "secret") (Some {["add_manual_devices" := VBool false]})
  = CreateEntry (Some "user") (credentials "email" "password" (Some "user") (Some "secret")).
Proof.
  apply (blank_submit_is_declining strip_ref "email" "password" "manual_devices").
  - intros device text Hin Hui.
    apply list_elem_of_singleton in Hin. subst device.
    change (ip_key _) with "device_ip_abc" in Hui.
    rewrite lookup_singleton_eq in Hui. injection Hui as <-. reflexivity.
  - reflexivity.
Defined.

Lemma device_list_form_matches_submit_witness :
  ∃ schema_keys,
    async_step_manual_config strip_ref "email" "password" "manual_devices"
      [{| dev_name := "S1"; dev_device_id := "abc"; dev_local_key := "k";
          dev_home_id := "h" |}]
      (Some "user") (Some "secret") (Some {["add_manual_devices" := VBool true]})
    = ShowForm "device_list" schema_keys
        (device_info [{| dev_name := "S1"; dev_device_id := "abc"; dev_local_key := "k";
                         dev_home_id := "h" |}]) ∧
    NoDup schema_keys.
Proof.
  destruct (device_list_form_matches_submit strip_ref "email" "password" "manual_devices"
              [{| dev_name := "S1"; dev_device_id := "abc"; dev_local_key := "k";
                  dev_home_id := "h" |}]
              (Some "user") (Some "secret") {["add_manual_devices" := VBool true]})
    as (schema_keys & Hform & Hnd & _); [reflexivity |].
  exists schema_keys. split; [exact Hform | exact Hnd].
Defined.

Example device_info_lines :
  device_info [{| dev_name := "S1"; dev_device_id := "abc"; dev_local_key := "k";
                  dev_home_id := "h" |};
               {| dev_name := "X8"; dev_device_id := "def"; dev_local_key := "k";
                  dev_home_id := "h" |}]
  = String.append "- S1 (ID: abc)"
      (String (ascii_of_nat 10) "- X8 (ID: def)").
Proof. reflexivity. Qed.

Example strip_ref_spaces : strip_ref " 192.168.1.20 " = "192.168.1.20".
Proof. reflexivity. Qed.

(** ** The parser on encoded fields *)

Lemma continuation_byte_value (v : Z) :
  Z.lor (Z.land v 0x7F) 0x80 = v mod 128 + 128.
Proof.
  change 0x7F with (Z.ones 7). rewrite Z.land_ones by lia. change (2 ^ 7) with 128.
  pose proof (Z.mod_pos_bound v 128 ltac:(lia)) as Hm.
  rewrite <- Z.add_nocarry_lor; [reflexivity |].
  exact (land_0x80_small (v mod 128) Hm).
Qed.

(** The one, two and three byte encodings. *)
Lemma encode_varint_bytes (v : Z) :
  0 ≤ v < 2 ^ 21 →
  encode_varint v =
  if decide (v < 128) then [v]
  else if decide (v < 16384) then [v mod 128 + 128; v / 128]
  else [v mod 128 + 128; (v / 128) mod 128 + 128; v / 16384].
Proof.
  intros Hv. change (2 ^ 21) with 2097152 in Hv.
  rewrite encode_varint_step. case_decide; [reflexivity |].
  rewrite continuation_byte_value, Z.shiftr_div_pow2 by lia. change (2 ^ 7) with 128.
  assert (Hq : 0 ≤ v / 128 < 16384)
    by (split; [apply Z.div_pos; lia | apply Z.div_lt_upper_bound; lia]).
  rewrite encode_varint_step.
  destruct (decide (v / 128 < 128)) as [H2 | H3].
  - rewrite decide_True; [reflexivity |].
    apply Z.nle_gt. intros Hx. apply (Z.div_le_mono _ _ 128) in Hx; [| lia].
    change (16384 / 128) with 128 in Hx. lia.
  - rewrite decide_False.
    2:{ intros Hx. apply H3. apply Z.div_lt_upper_bound; lia. }
    rewrite continuation_byte_value, Z.shiftr_div_pow2 by lia. change (2 ^ 7) with 128.
    rewrite Z.div_div by lia. change (128 * 128) with 16384.
    assert (Hq2 : 0 ≤ v / 16384 < 128)
      by (split; [apply Z.div_pos; lia | apply Z.div_lt_upper_bound; lia]).
    rewrite encode_varint_step, decide_True by lia. reflexivity.
Qed.

Lemma byte_at_from_end (pre suf : bytes) (k : Z) :
  1 ≤ k ≤ len suf →
  byte_at (pre ++ suf) (len (pre ++ suf) - k) = byte_at suf (len suf - k).
Proof.
  intros Hk.
  replace (len (pre ++ suf) - k) with (len (pre ++ suf) - len suf + (len suf - k)) by lia.
  apply byte_at_suffix. lia.
Qed.

Lemma tag_at_other (data : bytes) (i b : Z) :
  byte_at data i = Some b → b ≠ 0x18 → tag_at data i = false.
Proof.
  intros Hb Hne. unfold tag_at. rewrite Hb.
  apply bool_decide_eq_false_2. congruence.
Qed.

Lemma spec_total_count_encoded (pre : bytes) (c : Z) :
  0 ≤ c < 2 ^ 21 →
  spec_total_count (pre ++ 0x18 :: encode_varint c) = Some c.
Proof.
  intros Hc. rewrite (encode_varint_bytes c Hc). change (2 ^ 21) with 2097152 in Hc.
  pose proof (Z.mod_pos_bound c 128 ltac:(lia)) as Hm.
  pose proof (Z.div_mod c 128 ltac:(lia)) as Hdm.
  unfold spec_total_count.
  destruct (decide (c < 128)) as [H1 | H1].
  { unfold tag_at. rewrite !byte_at_from_end by (unfold len; cbn; lia).
    reflexivity. }
  assert (H0 : 0 ≤ c / 128) by (apply Z.div_pos; lia).
  destruct (decide (c < 16384)) as [H2 | H2].
  { rewrite (tag_at_other _ _ (c mod 128 + 128)); [| | lia].
    2:{ rewrite byte_at_from_end by (unfold len; cbn; lia). reflexivity. }
    unfold tag_at. rewrite !byte_at_from_end by (unfold len; cbn; lia).
    change (byte_at [24; c mod 128 + 128; c / 128] (len [24; c mod 128 + 128; c / 128] - 3))
      with (Some 24).
    change (byte_at [24; c mod 128 + 128; c / 128] (len [24; c mod 128 + 128; c / 128] - 2))
      with (Some (c mod 128 + 128)).
    change (byte_at [24; c mod 128 + 128; c / 128] (len [24; c mod 128 + 128; c / 128] - 1))
      with (Some (c / 128)).
    rewrite bool_decide_eq_true_2 by reflexivity. cbn [mbind option_bind].
    rewrite <- continuation_byte_value at 1.
    replace (bit7 (Z.lor (Z.land c 127) 128)) with true.
    2:{ symmetry. rewrite <- nonzero_land_0x80. unfold nonzero.
        pose proof (continuation_byte_high c) as Hh.
        now destruct (Z.eqb_spec (Z.land (Z.lor (Z.land c 127) 128) 128) 0). }
    rewrite <- continuation_byte_value, continuation_byte_low.
    change 127 with (Z.ones 7). rewrite Z.land_ones, Z.shiftl_mul_pow2 by lia.
    change (2 ^ 7) with 128. f_equal. lia. }
  pose proof (Z.mod_pos_bound (c / 128) 128 ltac:(lia)) as Hm2.
  pose proof (Z.div_mod (c / 128) 128 ltac:(lia)) as Hdm2.
  rewrite Z.div_div in Hdm2 by lia. change (128 * 128) with 16384 in Hdm2.
  set (suf := [24; c mod 128 + 128; c / 128 mod 128 + 128; c / 16384]).
  change (pre ++ 24 :: [c mod 128 + 128; c / 128 mod 128 + 128; c / 16384])
    with (pre ++ suf).
  assert (E1 : byte_at (pre ++ suf) (len (pre ++ suf) - 1) = Some (c / 16384))
    by (rewrite byte_at_from_end by (unfold len; cbn; lia); reflexivity).
  assert (E2 : byte_at (pre ++ suf) (len (pre ++ suf) - 2) = Some (c / 128 mod 128 + 128))
    by (rewrite byte_at_from_end by (unfold len; cbn; lia); reflexivity).
  assert (E3 : byte_at (pre ++ suf) (len (pre ++ suf) - 3) = Some (c mod 128 + 128))
    by (rewrite byte_at_from_end by (unfold len; cbn; lia); reflexivity).
  assert (E4 : byte_at (pre ++ suf) (len (pre ++ suf) - 4) = Some 24)
    by (rewrite byte_at_from_end by (unfold len; cbn; lia); reflexivity).
  rewrite (tag_at_other _ _ _ E2) by lia.
  rewrite (tag_at_other _ _ _ E3) by lia.
  unfold tag_at. rewrite E1, E2, E3, E4.
  rewrite bool_decide_eq_true_2 by reflexivity. cbn [mbind option_bind].
  rewrite <- !continuation_byte_value.
  replace (bit7 (Z.lor (Z.land c 127) 128)) with true.
  2:{ symmetry. rewrite <- nonzero_land_0x80. unfold nonzero.
      pose proof (continuation_byte_high c) as Hh.
      now destruct (Z.eqb_spec (Z.land (Z.lor (Z.land c 127) 128) 128) 0). }
  replace (bit7 (Z.lor (Z.land (c / 128) 127) 128)) with true.
  2:{ symmetry. rewrite <- nonzero_land_0x80. unfold nonzero.
      pose proof (continuation_byte_high (c / 128)) as Hh.
      now destruct (Z.eqb_spec (Z.land (Z.lor (Z.land (c / 128) 127) 128) 128) 0). }
  cbn [andb]. rewrite !continuation_byte_low.
  change 127 with (Z.ones 7). rewrite !Z.land_ones, !Z.shiftl_mul_pow2 by lia.
  change (2 ^ 7) with 128. change (2 ^ 14) with 16384. f_equal. lia.
Qed.

Lemma byte_at_after (pre suf : bytes) (i : Z) :
  0 ≤ i → byte_at (pre ++ suf) (len pre + i) = byte_at suf i.
Proof.
  intros Hi. rewrite <- (byte_at_suffix pre suf i Hi). f_equal.
  rewrite len_app. lia.
Qed.

Lemma spec_total_area_encoded (pre post : bytes) (a : Z) :
  len pre = 14 → 0 ≤ a < 2 ^ 14 →
  16 ≤ len (pre ++ encode_varint a ++ post) →
  spec_total_area (pre ++ encode_varint a ++ post) = Some a.
Proof.
  intros Hpre Ha. change (2 ^ 14) with 16384 in Ha.
  rewrite (encode_varint_bytes a) by (change (2 ^ 21) with 2097152; lia).
  pose proof (Z.mod_pos_bound a 128 ltac:(lia)) as Hm.
  pose proof (Z.div_mod a 128 ltac:(lia)) as Hdm.
  intros Hlen. unfold spec_total_area.
  destruct (Z.leb_spec 16 (len (pre ++ (if decide (a < 128) then [a]
      else if decide (a < 16384) then [a mod 128 + 128; a / 128]
      else [a mod 128 + 128; a / 128 mod 128 + 128; a / 16384]) ++ post)));
    [| lia].
  assert (E14 : ∀ suf, byte_at (pre ++ suf) 14 = byte_at suf 0)
    by (intros suf; rewrite <- (byte_at_after pre suf 0) by lia; f_equal; lia).
  assert (E15 : ∀ suf, byte_at (pre ++ suf) 15 = byte_at suf 1)
    by (intros suf; rewrite <- (byte_at_after pre suf 1) by lia; f_equal; lia).
  rewrite E14, E15.
  destruct (decide (a < 128)) as [H1 | H1].
  - destruct post as [| b post].
    { rewrite !len_app in Hlen. unfold len in Hlen at 2 3. cbn in Hlen. lia. }
    change (byte_at ([a] ++ b :: post) 0) with (Some a).
    change (byte_at ([a] ++ b :: post) 1) with (Some b).
    cbn [mbind option_bind]. rewrite (bit7_byte a) by lia.
    now rewrite bool_decide_eq_false_2 by lia.
  - rewrite decide_True by lia.
    change (byte_at ([a mod 128 + 128; a / 128] ++ post) 0) with (Some (a mod 128 + 128)).
    change (byte_at ([a mod 128 + 128; a / 128] ++ post) 1) with (Some (a / 128)).
    cbn [mbind option_bind]. rewrite (bit7_byte (a mod 128 + 128)) by lia.
    rewrite bool_decide_eq_true_2 by lia.
    rewrite <- continuation_byte_value, continuation_byte_low.
    change 127 with (Z.ones 7). rewrite Z.land_ones, Z.shiftl_mul_pow2 by lia.
    change (2 ^ 7) with 128. f_equal. lia.
Qed.

Section ParserRoundTrip.

Variable b64decode : string → exn + bytes.

(** X21. A count field written as the tag [0x18] followed by the varint
    of a count below [2^21], at the end of a blob with anything before
    it, is read back by the parser as that count. *)
Theorem total_count_round_trip (v : Value) (pre : bytes) (c : Z) :
  base64_b64decode b64decode v = inr (pre ++ 0x18 :: encode_varint c) →
  0 ≤ c < 2 ^ 21 →
  ∃ stats,
    parse_dps167_statistics b64decode v = inr stats ∧
    stats !! "total_count" = Some (Some c).
Proof.
  intros Hdec Hc. rewrite (parse_decoded _ _ _ Hdec).
  eexists. split; [reflexivity |].
  now rewrite total_count_lookup, spec_total_count_encoded.
Qed.

(** X22. An area below [2^14] written as a varint at position 14 of a blob
    of 16 bytes or more is read back by the parser as that area. *)
Theorem total_area_round_trip (v : Value) (pre post : bytes) (a : Z) :
  base64_b64decode b64decode v = inr (pre ++ encode_varint a ++ post) →
  len pre = 14 → 0 ≤ a < 2 ^ 14 →
  16 ≤ len (pre ++ encode_varint a ++ post) →
  ∃ stats,
    parse_dps167_statistics b64decode v = inr stats ∧
    stats !! "total_area" = Some (Some a).
Proof.
  intros Hdec Hpre Ha Hlen. rewrite (parse_decoded _ _ _ Hdec).
  eexists. split; [reflexivity |].
  now rewrite total_area_lookup, spec_total_area_encoded.
Qed.

End ParserRoundTrip.

Lemma total_count_round_trip_witness :
  ∃ stats,
    parse_dps167_statistics b64decode_ref (VStr "GJQB") = inr stats ∧
    stats !! "total_count" = Some (Some 148).
Proof.
  apply (total_count_round_trip b64decode_ref (VStr "GJQB") [] 148).
  - reflexivity.
  - lia.
Defined.

Lemma total_area_round_trip_witness :
  ∃ stats,
    parse_dps167_statistics b64decode_ref (VStr "Cg4AAAAAAAAAAAAAAACUARgH") = inr stats ∧
    stats !! "total_area" = Some (Some 148).
Proof.
  apply (total_area_round_trip b64decode_ref (VStr "Cg4AAAAAAAAAAAAAAACUARgH")
           [10; 14; 0; 0; 0; 0; 0; 0; 0; 0; 0; 0; 0; 0] [24; 7] 148).
  - reflexivity.
  - reflexivity.
  - split; [discriminate | reflexivity].
  - discriminate.
Defined.
